(** * DalleBart (dalle_mini/model/modeling.py): a shallow embedding

    Parameter trees are manipulated by the code through
    [flatten_dict]/[unflatten_dict], i.e. as flat mappings from key paths
    (tuples of strings) to tensors; they are modelled here as stdpp [gmap]s
    keyed by [list string].  Tensors carry their shape (what the code
    compares) and their contents.  Python exceptions are an inductive
    [exn]; fallible code returns a [result]. *)

From Stdlib Require Import ZArith Lia Arith.
From stdpp Require Import base gmap sets list strings pretty.

Set Warnings "-register-all".
Open Scope Z_scope.

(** ** Common data *)

(** A flat parameter key, as produced by [flax.traverse_util.flatten_dict]. *)
Abbreviation fkey := (list string).

(** Tensors: a shape and the values (row-major). *)
Record Tensor := mkTensor { shape : list nat; data : list Z }.

(** Exceptions raised by the modelled code. *)
Inductive exn :=
  (** [ValueError(f"Trying to load the pretrained weight for {key} failed:
      checkpoint has shape {..} which is incompatible with the model shape {..}")] *)
  | ShapeMismatchError (key : fkey) (ckpt_shape model_shape : list nat)
  (** [KeyError(key)] on a dict lookup or [del] *)
  | KeyError (key : fkey)
  (** [ZeroDivisionError] of Python's [//] *)
  | ZeroDivisionError
  (** [ValueError("embed_dim must be divisible by num_heads ...")] *)
  | EmbedDimError (embed_dim num_heads : Z)
  (** [ValueError("Make sure to provide `decoder_position_ids` when passing
      `past_key_values`.")] *)
  | MissingPositionIdsError
  (** [OSError("You seem to have cloned a repository without having git-lfs
      installed. ...")] *)
  | GitLfsError
  (** [EnvironmentError(f"Unable to convert {archive_file} to Flax
      deserializable object. ")] *)
  | ConvertError
  (** an exception of a library (msgpack, flax, jax) propagated unchanged *)
  | LibraryError (name : string).

Inductive result (A : Type) :=
  | Ok (a : A)
  | Err (e : exn).
Arguments Ok {A} a.
Arguments Err {A} e.

Global Instance result_ret : MRet result := fun _ a => Ok a.
Global Instance result_bind : MBind result :=
  fun _ _ f m => match m with Ok a => f a | Err e => Err e end.

Definition is_ok {A} (r : result A) : bool :=
  match r with Ok _ => true | Err _ => false end.

(** ** Checkpoint reconciliation ([FlaxBartPreTrainedModel.from_pretrained],
    lines 544-617) *)
Module Reconcile.

(** The part of a constructed model that [from_pretrained] uses: the
    parameters (flattened, [flatten_dict(unfreeze(model.params))]) and
    [model.required_params]. *)
Record model := mkModel {
  params : gmap fkey Tensor;
  required_params : gset fkey
}.

(** [__init__]: [self._required_params = set(flatten_dict(unfreeze(params)).keys())]
    and [self.params = params]. *)
Definition init_model (p : gmap fkey Tensor) : model :=
  {| params := p; required_params := dom p |}.

Definition mismatch := (fkey * list nat * list nat)%type.

(** [for key in state.keys():
       if key in random_state and state[key].shape != random_state[key].shape:
           if ignore_mismatched_sizes:
               mismatched_keys.append((key, state[key].shape, random_state[key].shape))
               state[key] = random_state[key]
           else:
               raise ValueError(...)] *)
Fixpoint mismatch_loop (ignore_mismatched_sizes : bool)
    (random_state : gmap fkey Tensor) (keys : list fkey)
    (state : gmap fkey Tensor) (mismatched_keys : list mismatch)
    : result (gmap fkey Tensor * list mismatch) :=
  match keys with
  | [] => Ok (state, mismatched_keys)
  | key :: keys' =>
      match random_state !! key with
      | None => mismatch_loop ignore_mismatched_sizes random_state keys' state mismatched_keys
      | Some r =>
          match state !! key with
          | None => Err (KeyError key)
          | Some s =>
              if decide (shape s <> shape r) then
                if ignore_mismatched_sizes then
                  mismatch_loop ignore_mismatched_sizes random_state keys'
                    (<[key := r]> state) (mismatched_keys ++ [(key, shape s, shape r)])
                else Err (ShapeMismatchError key (shape s) (shape r))
              else mismatch_loop ignore_mismatched_sizes random_state keys' state mismatched_keys
          end
      end
  end.

(** [for missing_key in missing_keys:
         state[missing_key] = random_state[missing_key]] *)
Fixpoint fill_missing (random_state : gmap fkey Tensor) (missing_keys : list fkey)
    (state : gmap fkey Tensor) : result (gmap fkey Tensor) :=
  match missing_keys with
  | [] => Ok state
  | k :: ks =>
      match random_state !! k with
      | Some v => fill_missing random_state ks (<[k := v]> state)
      | None => Err (KeyError k)
      end
  end.

(** [for unexpected_key in unexpected_keys:
         del state[unexpected_key]] *)
Fixpoint drop_unexpected (unexpected_keys : list fkey) (state : gmap fkey Tensor)
    : result (gmap fkey Tensor) :=
  match unexpected_keys with
  | [] => Ok state
  | k :: ks =>
      match state !! k with
      | Some _ => drop_unexpected ks (delete k state)
      | None => Err (KeyError k)
      end
  end.

(** Lines 544-617, from the flattened checkpoint [state] to the flat
    mapping handed to [unflatten_dict], with the list of mismatched keys.
    (Logging has no effect on the result and is left out.) *)
Definition reconcile (ignore_mismatched_sizes : bool) (m : model)
    (state : gmap fkey Tensor) : result (gmap fkey Tensor * list mismatch) :=
  let random_state := params m in
  let missing_keys := required_params m ∖ dom state in
  let unexpected_keys := dom state ∖ required_params m in
  '(state, mismatched_keys) ← mismatch_loop ignore_mismatched_sizes random_state
                                 ((map_to_list state).*1) state [];
  state ← fill_missing random_state (elements missing_keys) state;
  state ← drop_unexpected (elements unexpected_keys) state;
  Ok (state, mismatched_keys).

End Reconcile.

(** ** Attention setup ([FlaxBartAttention.setup], lines 74-80) *)
Module Attention.

(** [self.head_dim = self.embed_dim // self.num_heads] ([//] is floor
    division, [Z.div]; by zero it raises), then
    [if self.head_dim * self.num_heads != self.embed_dim: raise ValueError].
    The remaining statements of [setup] only declare submodules. *)
Definition setup (embed_dim num_heads : Z) : result Z :=
  if decide (num_heads = 0) then Err ZeroDivisionError
  else
    let head_dim := embed_dim `div` num_heads in
    if decide (head_dim * num_heads <> embed_dim)
    then Err (EmbedDimError embed_dim num_heads)
    else Ok head_dim.

End Attention.

(** ** Configuration, parameter trees and the output projection *)
Module Params.

(** The fields of [DalleBartConfig] read by the modelled code. *)
Record config := mkConfig {
  d_model : nat;
  encoder_vocab_size : nat;
  image_vocab_size : nat;
  max_text_length : nat;
  image_length : nat;
  encoder_layers : nat;
  decoder_layers : nat;
  encoder_ffn_dim : nat;
  encoder_attention_heads : nat;
  decoder_attention_heads : nat;
  tie_word_embeddings : bool
}.

(** A (frozen) nested dict of parameters or cache variables. *)
Inductive ptree (A : Type) :=
  | PLeaf (a : A)
  | PNode (kids : list (string * ptree A)).
Arguments PLeaf {A} a.
Arguments PNode {A} kids.

Fixpoint tree_map {A B} (f : A -> B) (t : ptree A) : ptree B :=
  match t with
  | PLeaf a => PLeaf (f a)
  | PNode kids => PNode (map (fun '(k, c) => (k, tree_map f c)) kids)
  end.

Fixpoint assoc {A} (k : string) (kids : list (string * ptree A)) : option (ptree A) :=
  match kids with
  | [] => None
  | (k', c) :: kids' => if String.eqb k k' then Some c else assoc k kids'
  end.

(** [t[k1][k2]...[kn]]: a missing key raises [KeyError(k)]. *)
Fixpoint lookup_path {A} (path : list string) (t : ptree A) : result (ptree A) :=
  match path with
  | [] => Ok t
  | k :: ks =>
      match t with
      | PNode kids =>
          match assoc k kids with
          | Some c => lookup_path ks c
          | None => Err (KeyError [k])
          end
      | PLeaf _ => Err (LibraryError "TypeError: array indices must be integers")
      end
  end.

(** Parameter shapes created by [nn.Embed(num_embeddings, features)]. *)
Definition embed_params (num_embeddings features : nat) : ptree (list nat) :=
  PNode [("embedding", PLeaf [num_embeddings; features])].

(** [nn.Dense(features, use_bias=False)] applied to inputs of width [din]. *)
Definition dense_params (din features : nat) : ptree (list nat) :=
  PNode [("kernel", PLeaf [din; features])].

(** [nn.LayerNorm] over width [d]. *)
Definition layernorm_params (d : nat) : ptree (list nat) :=
  PNode [("scale", PLeaf [d]); ("bias", PLeaf [d])].

(** [FlaxBartAttention] with [bias=False]: four [dense()] of width [embed_dim]. *)
Definition attention_params (d : nat) : ptree (list nat) :=
  PNode [("q_proj", dense_params d d); ("k_proj", dense_params d d);
         ("v_proj", dense_params d d); ("out_proj", dense_params d d)].

(** [FlaxBartEncoderLayer.setup] (lines 109-135). *)
Definition encoder_layer_params (cfg : config) : ptree (list nat) :=
  PNode [("self_attn", attention_params (d_model cfg));
         ("self_attn_layer_norm", layernorm_params (d_model cfg));
         ("fc1", dense_params (d_model cfg) (encoder_ffn_dim cfg));
         ("fc2", dense_params (encoder_ffn_dim cfg) (d_model cfg));
         ("final_layer_norm", layernorm_params (d_model cfg))].

(** [FlaxBartDecoderLayer.setup] (lines 165-202); its [fc1]/[fc2] are sized
    by [encoder_ffn_dim], as in the source. *)
Definition decoder_layer_params (cfg : config) : ptree (list nat) :=
  PNode [("self_attn", attention_params (d_model cfg));
         ("self_attn_layer_norm", layernorm_params (d_model cfg));
         ("encoder_attn", attention_params (d_model cfg));
         ("encoder_attn_layer_norm", layernorm_params (d_model cfg));
         ("fc1", dense_params (d_model cfg) (encoder_ffn_dim cfg));
         ("fc2", dense_params (encoder_ffn_dim cfg) (d_model cfg));
         ("final_layer_norm", layernorm_params (d_model cfg))].

(** [str(i)] *)
Definition layer_name (i : nat) : string := pretty (N.of_nat i).

(** The layer collections: [layer_module(self.config, name=str(i))] for
    [i in range(n)]. *)
Definition layers_params (n : nat) (layer : ptree (list nat)) : ptree (list nat) :=
  PNode (map (fun i => (layer_name i, layer)) (seq 0 n)).

(** [FlaxBartModule.setup] (lines 291-308) with [FlaxBartEncoder.setup]
    and [FlaxBartDecoder.setup]: the two embedding tables are created in
    [FlaxBartModule.setup] without being stored on it and are passed to
    the encoder and the decoder as their [embed_tokens] attribute, so
    their parameters live under [encoder/embed_tokens] and
    [decoder/embed_tokens]; the module has no [shared] table. *)
Definition model_params (cfg : config) : ptree (list nat) :=
  PNode [
    ("encoder", PNode [
       ("embed_tokens", embed_params (encoder_vocab_size cfg) (d_model cfg));
       ("embed_positions", embed_params (max_text_length cfg) (d_model cfg));
       ("layers", layers_params (encoder_layers cfg) (encoder_layer_params cfg));
       ("layernorm_embedding", layernorm_params (d_model cfg))]);
    ("decoder", PNode [
       ("embed_tokens", embed_params (image_vocab_size cfg + 1) (d_model cfg));
       ("embed_positions", embed_params (image_length cfg) (d_model cfg));
       ("layers", layers_params (decoder_layers cfg) (decoder_layer_params cfg));
       ("layernorm_embedding", layernorm_params (d_model cfg))])].

(** [FlaxBartForConditionalGenerationModule.setup] (lines 630-638): the
    shapes of the parameter tree ([init_weights] with [abstract_init]). *)
Definition init_shapes (cfg : config) : ptree (list nat) :=
  PNode [("model", model_params cfg);
         ("lm_head", dense_params (d_model cfg) (image_vocab_size cfg + 1))].

Definition sumZ (l : list Z) : Z := fold_right Z.add 0 l.

(** [nn.Dense] applied to one hidden vector (the kernel acts on the last
    axis, independently for every batch and sequence position). *)
Definition dense_apply (kernel h : Tensor) : result Tensor :=
  match shape kernel, shape h with
  | [din; dout], [dh] =>
      if decide (dh = din) then
        Ok (mkTensor [dout]
              (map (fun j => sumZ (map (fun i => nth i (data h) 0 * nth (i * dout + j) (data kernel) 0)
                                       (seq 0 din)))
                   (seq 0 dout)))
      else Err (LibraryError "TypeError: dot_general requires contracting dimensions to have the same shape")
  | _, _ => Err (LibraryError "TypeError: dot_general requires contracting dimensions to have the same shape")
  end.

(** [x.T] of a 2-D array. *)
Definition transpose (t : Tensor) : Tensor :=
  match shape t with
  | [a; b] => mkTensor [b; a]
                (flat_map (fun j => map (fun i => nth (i * b + j) (data t) 0) (seq 0 a)) (seq 0 b))
  | _ => t
  end.

Definition leaf (r : result (ptree Tensor)) : result Tensor :=
  match r with
  | Ok (PLeaf t) => Ok t
  | Ok (PNode _) => Err (LibraryError "TypeError: dict is not an array")
  | Err e => Err e
  end.

(** Lines 668-674 (and 786-794 of [decode]):
    [if self.config.tie_word_embeddings:
         shared_embedding = self.model.variables["params"]["shared"]["embedding"]
         lm_logits = self.lm_head.apply({"params": {"kernel": shared_embedding.T}}, hidden_states)
     else:
         lm_logits = self.lm_head(hidden_states)] *)
Definition lm_logits (cfg : config) (params : ptree Tensor) (hidden_state : Tensor) : result Tensor :=
  if tie_word_embeddings cfg then
    shared_embedding ← leaf (lookup_path ["model"; "shared"; "embedding"] params);
    dense_apply (transpose shared_embedding) hidden_state
  else
    kernel ← leaf (lookup_path ["lm_head"; "kernel"] params);
    dense_apply kernel hidden_state.

End Params.

(** ** [DalleBart.decode] and [DalleBart.prepare_inputs_for_generation] *)
Module Decode.
Import Params.

(** A 2-D integer array (ids, masks, position ids) of shape
    [(mrows, mcols)], read by index. *)
Record Mat := mkMat { mrows : nat; mcols : nat; mget : nat -> nat -> Z }.

(** [jnp.ones((b, n))] *)
Definition ones (b n : nat) : Mat := mkMat b n (fun _ _ => 1).

(** [jnp.ones((b, n))] for a Python integer [n]: a negative dimension raises. *)
Definition ones_checked (b : nat) (n : Z) : result Mat :=
  if decide (n < 0) then Err (LibraryError "ValueError: negative dimensions are not allowed")
  else Ok (ones b (Z.to_nat n)).

(** [jnp.broadcast_to(jnp.arange(s)[None, :], (b, s))] *)
Definition arange_broadcast (b s : nat) : Mat := mkMat b s (fun _ j => Z.of_nat j).

(** [m.cumsum(axis=-1) - 1] *)
Definition cumsum_minus_one (m : Mat) : Mat :=
  mkMat (mrows m) (mcols m) (fun i j => sumZ (map (fun j' => mget m i j') (seq 0 (S j))) - 1).

(** [lax.dynamic_update_slice(operand, update, (0, 0))]: the update must
    fit in the operand; it overwrites the leading block. *)
Definition dynamic_update_slice (operand update : Mat) : result Mat :=
  if decide (mrows update <= mrows operand /\ mcols update <= mcols operand)%nat then
    Ok (mkMat (mrows operand) (mcols operand)
          (fun i j => if Nat.ltb i (mrows update) && Nat.ltb j (mcols update)
                      then mget update i j else mget operand i j))
  else Err (LibraryError "TypeError: dynamic_update_slice update shape must be smaller than operand shape").

(** Python truthiness of the cache dict ([if past_key_values:]). *)
Definition truthy (c : ptree Tensor) : bool :=
  match c with PNode [] => false | _ => true end.

(** The keyword arguments [decode] hands to [self.module.apply] (lines
    798-812). *)
Record module_inputs := mkInputs {
  mi_decoder_input_ids : Mat;
  mi_decoder_attention_mask : Mat;
  mi_decoder_position_ids : Mat;
  mi_encoder_hidden_states : Tensor;
  mi_encoder_attention_mask : Mat;
  mi_cache : option (ptree Tensor);   (** [inputs["cache"]] *)
  mi_mutable : bool                   (** [mutable=["cache"]] or [False] *)
}.

Section DecodeSec.
(** The flax module application ([self.module.apply(..., method=_decoder_forward)]),
    a library call. *)
Context {Out : Type} (module_apply : module_inputs -> result Out).

(** [DalleBart.decode] (lines 706-836), up to the module application;
    [encoder_outputs[0]] is passed as [encoder_hidden_states]. *)
Definition decode (decoder_input_ids : Mat) (encoder_hidden_states : Tensor)
    (encoder_attention_mask decoder_attention_mask decoder_position_ids : option Mat)
    (past_key_values : option (ptree Tensor)) : result Out :=
  encoder_attention_mask ←
    match encoder_attention_mask with
    | Some m => Ok m
    | None =>
        match shape encoder_hidden_states with
        | batch_size :: sequence_length :: _ => Ok (ones batch_size sequence_length)
        | _ => Err (LibraryError "ValueError: not enough values to unpack")
        end
    end;
  let batch_size := mrows decoder_input_ids in
  let sequence_length := mcols decoder_input_ids in
  let decoder_attention_mask :=
    match decoder_attention_mask with
    | Some m => m
    | None => ones batch_size sequence_length
    end in
  decoder_position_ids ←
    match decoder_position_ids with
    | Some p => Ok p
    | None =>
        match past_key_values with
        | Some _ => Err MissingPositionIdsError
        | None => Ok (arange_broadcast batch_size sequence_length)
        end
    end;
  let use_cache := match past_key_values with Some c => truthy c | None => false end in
  module_apply
    {| mi_decoder_input_ids := decoder_input_ids;
       mi_decoder_attention_mask := decoder_attention_mask;
       mi_decoder_position_ids := decoder_position_ids;
       mi_encoder_hidden_states := encoder_hidden_states;
       mi_encoder_attention_mask := encoder_attention_mask;
       mi_cache := if use_cache then past_key_values else None;
       mi_mutable := use_cache |}.
End DecodeSec.

Fixpoint mapM {A B} (f : A -> result B) (l : list A) : result (list B) :=
  match l with
  | [] => Ok []
  | x :: xs => y ← f x; ys ← mapM f xs; Ok (y :: ys)
  end.

(** [jnp.zeros(shape)] *)
Definition zeros (sh : list nat) : Tensor := mkTensor sh (repeat 0 (foldr Nat.mul 1%nat sh)).

(** The cache variables of one causal self-attention
    ([FlaxBartAttention._concatenate_to_cache] of the transformers
    library): [cached_key] and [cached_value] are zeros of the shape of
    the split keys [(batch, max_length, num_heads, head_dim)] and
    [cache_index] is [jnp.array(0, dtype=jnp.int32)]. *)
Definition layer_cache (batch_size max_length num_heads head_dim : nat) : ptree Tensor :=
  PNode [("self_attn", PNode [
    ("cached_key", PLeaf (zeros [batch_size; max_length; num_heads; head_dim]));
    ("cached_value", PLeaf (zeros [batch_size; max_length; num_heads; head_dim]));
    ("cache_index", PLeaf (mkTensor [] [0]))])].

(** The causal self-attention of a decoder layer while [init_cache] runs
    ([FlaxBartAttention.__call__] of the transformers library, with the
    [causal_mask] of [setup], lines 95-99): queries and keys have length
    [L] and no cache variable exists yet, so the mask is
    [causal_mask[:, :, :L, :L]], of shape
    [(1, 1, min(L, image_length), min(L, image_length))], and the
    [(batch, 1, 1, L)] attention mask is [jnp.broadcast_to] its shape.
    For [L > image_length] the broadcast fails; the one exception,
    [L = 1] and [image_length = 0] (reachable only with an empty batch,
    the position embedding being empty), gives attention weights with an
    empty key axis, which [jnp.einsum] then contracts against the values'
    key axis of length 1. *)
Definition causal_mask_check (image_length L : nat) : result unit :=
  if decide (L <= image_length)%nat then Ok tt
  else if decide (L = 1%nat) then Err (LibraryError "AssertionError: Incompatible reduction dimensions")
  else Err (LibraryError "ValueError: Incompatible shapes for broadcasting").

(** The cross-attention of a decoder layer over [encoder_outputs[0]]
    (transformers' [FlaxBartAttention.__call__] with [key_value_states],
    then flax's [dot_product_attention_weights]): [k_proj], an
    [nn.Dense(d_model)] whose kernel is created for the input's last axis
    (a 0-d input has none), gives keys of shape
    [shape[:-1] + (d_model,)]; [_split_heads] reshapes them to
    [keys.shape[:2] + (num_heads, head_dim)], of size
    [keys.shape[0] * keys.shape[1] * d_model] (the [setup] that ran
    ensures [num_heads * head_dim = d_model]), which must keep the size;
    flax then asserts that the queries [(batch, L, num_heads, head_dim)]
    and the keys have the same rank and the same batch dims. *)
Definition cross_attention_check (d_model batch_size : nat) (encoder_hidden_states : Tensor) : result unit :=
  match shape encoder_hidden_states with
  | [] => Err (LibraryError "IndexError: tuple index out of range")
  | sh =>
      match removelast sh ++ [d_model] with
      | [k0] =>
          if decide (k0 = k0 * d_model)%nat
          then Err (LibraryError "AssertionError: q, k must have same rank.")
          else Err (LibraryError "TypeError: cannot reshape array")
      | k0 :: k1 :: rest =>
          if decide (foldr Nat.mul 1%nat (k0 :: k1 :: rest) = k0 * k1 * d_model)%nat then
            if decide (k0 = batch_size) then Ok tt
            else Err (LibraryError "AssertionError: q, k batch dims must match.")
          else Err (LibraryError "TypeError: cannot reshape array")
      | [] => Err (LibraryError "TypeError: cannot reshape array")
      end
  end.

(** [init_cache(batch_size, max_length, encoder_outputs)] of the
    transformers library: it runs the decoder ([module.init] with
    [init_cache=True], [encoder_hidden_states=encoder_outputs[0]]) on
    [jnp.ones((batch_size, max_length))], positions [0..max_length-1], and
    returns [init_variables["cache"]].  On the way: [FlaxBartDecoder]
    reshapes the ids with [input_ids.reshape(-1, max_length)], which
    cannot infer the [-1] for [max_length = 0]; the position embedding
    ([image_length] rows, [FlaxBartDecoder.setup]) is a [jnp.take], which
    refuses non-empty indices into an empty table; then each decoder
    layer, named [str(i)] ([FlaxBartDecoderLayerCollection.setup]), runs
    its self-attention, whose [setup] checks the heads and which creates
    the layer's cache variables, then its cross-attention.  Without any
    decoder layer no cache variable is created and the lookup of
    ["cache"] raises [KeyError]. *)
Definition init_cache (cfg : config) (batch_size : nat) (max_length : Z)
    (encoder_hidden_states : Tensor) : result (ptree Tensor) :=
  _ ← ones_checked batch_size max_length;
  let L := Z.to_nat max_length in
  _ ← (if decide (L = 0%nat)
       then Err (LibraryError "TypeError: cannot reshape array into shape (-1, 0)")
       else Ok tt);
  _ ← (if decide (image_length cfg = 0%nat /\ batch_size <> 0%nat)
       then Err (LibraryError "IndexError: Cannot do a non-empty jnp.take() from an empty axis.")
       else Ok tt);
  layers ← mapM (fun i =>
             head_dim ← Attention.setup (Z.of_nat (d_model cfg)) (Z.of_nat (decoder_attention_heads cfg));
             _ ← causal_mask_check (image_length cfg) L;
             _ ← cross_attention_check (d_model cfg) batch_size encoder_hidden_states;
             Ok (layer_name i, layer_cache batch_size L (decoder_attention_heads cfg) (Z.to_nat head_dim)))
           (seq 0 (decoder_layers cfg));
  match layers with
  | [] => Err (KeyError ["cache"])
  | _ :: _ => Ok (PNode [("model", PNode [("decoder", PNode [("layers", PNode layers)])])])
  end.

(** The dict returned by [prepare_inputs_for_generation]. *)
Record gen_inputs := mkGen {
  g_past_key_values : ptree Tensor;
  g_encoder_outputs : Tensor;
  g_encoder_attention_mask : option Mat;
  g_decoder_attention_mask : Mat;
  g_decoder_position_ids : Mat
}.

(** [DalleBart.prepare_inputs_for_generation] (lines 838-871).
    [encoder_outputs] is represented by [encoder_outputs[0]], the encoder's
    last hidden states: the one field the code reads (in [init_cache]); the
    object itself is returned unchanged. *)
Definition prepare_inputs_for_generation (cfg : config) (decoder_input_ids : Mat)
    (max_length : Z) (attention_mask decoder_attention_mask : option Mat)
    (encoder_outputs : Tensor) : result gen_inputs :=
  let batch_size := mrows decoder_input_ids in
  let seq_length := mcols decoder_input_ids in
  past_key_values ← init_cache cfg batch_size (max_length - 1) encoder_outputs;
  extended_attention_mask ← ones_checked batch_size (max_length - 1);
  '(position_ids, extended_attention_mask) ←
    match decoder_attention_mask with
    | Some m =>
        let position_ids := cumsum_minus_one m in
        ext ← dynamic_update_slice extended_attention_mask m;
        Ok (position_ids, ext)
    | None => Ok (arange_broadcast batch_size seq_length, extended_attention_mask)
    end;
  Ok {| g_past_key_values := past_key_values;
        g_encoder_outputs := encoder_outputs;
        g_encoder_attention_mask := attention_mask;
        g_decoder_attention_mask := extended_attention_mask;
        g_decoder_position_ids := position_ids |}.

End Decode.

(** ** Reading the checkpoint file ([from_pretrained], lines 509-526) *)
Module Load.

(** What [flax.serialization.from_bytes] does with the file's bytes. *)
Inductive deserialized :=
  | Deserialized (state : gmap fkey Tensor)
  | UnpicklingError
  | ExtraData                       (** [msgpack.exceptions.ExtraData] *)
  | OtherDeserError (name : string).  (** any other exception *)

Section LoadSec.
(** [from_bytes(cls, state_f.read())] and the text-mode
    [open(resolved_archive_file).read()] ([None]: [UnicodeDecodeError]). *)
Variable from_bytes : list Byte.byte -> deserialized.
Variable read_text : list Byte.byte -> option string.

(** [try: state = from_bytes(...)
     except (UnpicklingError, msgpack.exceptions.ExtraData) as e:
         try:
             with open(resolved_archive_file) as f:
                 if f.read().startswith("version"): raise OSError(...)
                 else: raise ValueError from e
         except (UnicodeDecodeError, ValueError):
             raise EnvironmentError(...)] *)
Definition load_state (contents : list Byte.byte) : result (gmap fkey Tensor) :=
  match from_bytes contents with
  | Deserialized state => Ok state
  | UnpicklingError | ExtraData =>
      match read_text contents with
      | None => Err ConvertError
      | Some text => if String.prefix "version" text then Err GitLfsError else Err ConvertError
      end
  | OtherDeserError name => Err (LibraryError name)
  end.
End LoadSec.

(** The legacy-format marker: the file's text starts with ["version"]. *)
Definition has_marker (read_text : list Byte.byte -> option string) (contents : list Byte.byte) : bool :=
  match read_text contents with
  | Some text => String.prefix "version" text
  | None => false
  end.

End Load.

(** ** Flattening, prefix handling and logging ([from_pretrained], lines
    528-617) and [num_params] (lines 375-382) *)
Module Loading.
Import Params Reconcile.

(** [flax.traverse_util.flatten_dict] as the list of its items, in
    iteration order: one [(key path, leaf)] per leaf, empty sub-dicts
    producing nothing. *)
Fixpoint flatten_items {A} (t : ptree A) : list (fkey * A) :=
  match t with
  | PLeaf a => [([], a)]
  | PNode kids =>
      flat_map (fun '(k, c) => map (fun '(path, a) => (k :: path, a)) (flatten_items c)) kids
  end.

(** [flatten_dict(t)] as a dict. *)
Definition flatten_dict {A} (t : ptree A) : gmap fkey A := list_to_map (flatten_items t).

(** [k in d] for a dict [d]. *)
Definition has_key {A} (k : string) (t : ptree A) : bool :=
  match t with
  | PNode kids => if assoc k kids then true else false
  | PLeaf _ => false
  end.

(** [cls.base_model_prefix] of [FlaxBartPreTrainedModel]. *)
Definition base_model_prefix : string := "model".

(** Lines 528-541:
    [if base_model_prefix not in dict(model.params) and base_model_prefix in state:
         state = state[base_model_prefix]
     if base_model_prefix in dict(model.params) and base_model_prefix not in state:
         state = {base_model_prefix: state}] *)
Definition adjust_prefix (model_params state : ptree Tensor) : ptree Tensor :=
  let state :=
    if negb (has_key base_model_prefix model_params) && has_key base_model_prefix state then
      match state with
      | PNode kids => match assoc base_model_prefix kids with Some c => c | None => state end
      | PLeaf _ => state
      end
    else state in
  if has_key base_model_prefix model_params && negb (has_key base_model_prefix state)
  then PNode [(base_model_prefix, state)]
  else state.

(** The records logged at the end of [from_pretrained] (lines 577-614). *)
Inductive log_record :=
  | WarnUnusedWeights (unexpected_keys : gset fkey)   (** "Some weights of the model checkpoint ... were not used" *)
  | InfoAllWeightsUsed                                (** "All model checkpoint weights were used" *)
  | WarnNewlyInitialized (missing_keys : gset fkey)   (** "... are newly initialized: {missing_keys}" *)
  | InfoAllWeightsInitialized                         (** "All the weights of ... were initialized" *)
  | WarnShapeMismatch (mismatched_keys : list mismatch). (** "... because the shapes did not match" *)

Definition is_warning (r : log_record) : bool :=
  match r with
  | WarnUnusedWeights _ | WarnNewlyInitialized _ | WarnShapeMismatch _ => true
  | InfoAllWeightsUsed | InfoAllWeightsInitialized => false
  end.

(** [if len(unexpected_keys) > 0: logger.warning(...) else: logger.info(...)
     if len(missing_keys) > 0: logger.warning(...)
     elif len(mismatched_keys) == 0: logger.info(...)
     if len(mismatched_keys) > 0: logger.warning(...)] *)
Definition log_records (missing_keys unexpected_keys : gset fkey)
    (mismatched_keys : list mismatch) : list log_record :=
  (if decide (0 < size unexpected_keys)%nat then [WarnUnusedWeights unexpected_keys]
   else [InfoAllWeightsUsed]) ++
  (if decide (0 < size missing_keys)%nat then [WarnNewlyInitialized missing_keys]
   else if decide (length mismatched_keys = 0)%nat then [InfoAllWeightsInitialized]
   else []) ++
  (if decide (0 < length mismatched_keys)%nat then [WarnShapeMismatch mismatched_keys] else []).

(** Lines 528-617 from the deserialized (nested) checkpoint [state], for a
    model whose freshly-initialized parameter tree is [model_params]:
    prefix handling, [flatten_dict], reconciliation and the log records;
    [model.params] is the returned flat mapping, unflattened. *)
Definition from_pretrained_params (ignore_mismatched_sizes : bool)
    (model_params state : ptree Tensor)
    : result (gmap fkey Tensor * list mismatch * list log_record) :=
  let m := init_model (flatten_dict model_params) in
  let state := flatten_dict (adjust_prefix model_params state) in
  let missing_keys := required_params m ∖ dom state in
  let unexpected_keys := dom state ∖ required_params m in
  '(res, mismatched_keys) ← reconcile ignore_mismatched_sizes m state;
  Ok (res, mismatched_keys, log_records missing_keys unexpected_keys mismatched_keys).

(** [param.size] *)
Definition param_size (t : Tensor) : nat := foldr Nat.mul 1%nat (shape t).

(** [num_params] (lines 375-382):
    [sum(jax.tree_map(lambda param: param.size, flatten_dict(unfreeze(params))).values())]. *)
Definition num_params (params : ptree Tensor) : nat :=
  sum_list_with (fun kv => param_size kv.2) (map_to_list (flatten_dict params)).

(** Keys are unique when the names of every dict are. *)
Inductive names_unique {A} : ptree A -> Prop :=
  | nu_leaf a : names_unique (PLeaf a)
  | nu_node kids : NoDup kids.*1 -> Forall (fun kc => names_unique kc.2) kids ->
      names_unique (PNode kids).

(** The sum of [f] over the leaves of a tree of shapes. *)
Definition leaf_sum (f : list nat -> nat) (t : ptree (list nat)) : nat :=
  sum_list_with (fun kv => f kv.2) (flatten_items t).

End Loading.

(** * Proofs *)

(** ** Checkpoint reconciliation *)
Module ReconcileFacts.
Import Reconcile.

Lemma mismatch_loop_ok_inv ig rs ks st mm st' mm' :
  mismatch_loop ig rs ks st mm = Ok (st', mm') ->
  dom st' = dom st /\
  (forall k, st' !! k = st !! k \/ st' !! k = rs !! k) /\
  (forall k, k ∉ ks -> st' !! k = st !! k) /\
  mm `prefix_of` mm'.
Proof.
  revert st mm. induction ks as [|key ks IH]; intros st mm H; simpl in H.
  - injection H as <- <-. split_and!; auto.
  - destruct (rs !! key) as [r|] eqn:Er.
    2:{ apply IH in H as (Hd & Hv & Hn & Hp). split_and!; auto.
        intros k Hk. apply Hn. set_solver. }
    destruct (st !! key) as [s|] eqn:Es; [|discriminate].
    case_decide.
    2:{ apply IH in H as (Hd & Hv & Hn & Hp). split_and!; auto.
        intros k Hk. apply Hn. set_solver. }
    destruct ig; [|discriminate].
    apply IH in H as (Hd & Hv & Hn & Hp). split_and!.
    + rewrite Hd, dom_insert_L. apply elem_of_dom_2 in Es. set_solver.
    + intros k. destruct (Hv k) as [Hk|Hk]; [|by right].
      rewrite Hk. destruct (decide (key = k)) as [->|Hne].
      * right. by rewrite lookup_insert_eq.
      * left. by rewrite lookup_insert_ne.
    + intros k Hk. rewrite Hn by set_solver.
      rewrite lookup_insert_ne; [done|set_solver].
    + etrans; [|exact Hp]. by eexists.
Qed.

Lemma mismatch_loop_err ig rs ks st mm e :
  (forall k, k ∈ ks -> k ∈ dom st) ->
  mismatch_loop ig rs ks st mm = Err e ->
  exists k s r, e = ShapeMismatchError k (shape s) (shape r) /\ ig = false /\
    st !! k = Some s /\ rs !! k = Some r /\ shape s <> shape r.
Proof.
  revert st mm. induction ks as [|key ks IH]; intros st mm Hks H; simpl in H.
  - discriminate.
  - destruct (rs !! key) as [r|] eqn:Er.
    2:{ eapply IH; [|exact H]. intros k Hk. apply Hks. set_solver. }
    destruct (st !! key) as [s|] eqn:Es.
    2:{ exfalso. assert (key ∈ dom st) as Hd by (apply Hks; set_solver).
        apply elem_of_dom in Hd as [? Hd]. congruence. }
    case_decide.
    2:{ eapply IH; [|exact H]. intros k Hk. apply Hks. set_solver. }
    destruct ig.
    + apply IH in H as (k & s' & r' & _ & Hf & _); [discriminate|].
      intros k Hk. rewrite dom_insert_L. apply elem_of_union_r, Hks. set_solver.
    + injection H as <-. by exists key, s, r.
Qed.

Lemma mismatch_loop_true_hit rs ks st mm k s r st' mm' :
  k ∈ ks -> st !! k = Some s -> rs !! k = Some r -> shape s <> shape r ->
  mismatch_loop true rs ks st mm = Ok (st', mm') ->
  st' !! k = Some r /\ (k, shape s, shape r) ∈ mm'.
Proof.
  revert st mm. induction ks as [|key ks IH]; intros st mm Hk Hs Hr Hne H.
  - set_solver.
  - simpl in H. destruct (decide (key = k)) as [->|Hkey].
    + rewrite Hr, Hs in H. rewrite decide_True in H by done.
      apply mismatch_loop_ok_inv in H as (_ & Hv & _ & Hp). split.
      * destruct (Hv k) as [->| ->]; [by rewrite lookup_insert_eq|done].
      * destruct Hp as [l ->]. set_solver.
    + assert (k ∈ ks) as Hk' by set_solver.
      destruct (rs !! key) as [r0|]; [|eapply IH; eauto].
      destruct (st !! key) as [s0|]; [|discriminate].
      case_decide; [|eapply IH; eauto].
      eapply IH; [exact Hk'| |exact Hr|exact Hne|exact H].
      by rewrite lookup_insert_ne.
Qed.

Lemma mismatch_loop_false_hit rs ks st mm k s r :
  (forall k, k ∈ ks -> k ∈ dom st) ->
  k ∈ ks -> st !! k = Some s -> rs !! k = Some r -> shape s <> shape r ->
  exists k' s' r', mismatch_loop false rs ks st mm = Err (ShapeMismatchError k' (shape s') (shape r')) /\
    st !! k' = Some s' /\ rs !! k' = Some r' /\ shape s' <> shape r'.
Proof.
  revert mm. induction ks as [|key ks IH]; intros mm Hks Hk Hs Hr Hne.
  - set_solver.
  - simpl. assert (forall k, k ∈ ks -> k ∈ dom st) as Hks' by (intros; apply Hks; set_solver).
    destruct (rs !! key) as [r0|] eqn:Er.
    2:{ assert (key <> k) by congruence. apply IH; auto. set_solver. }
    destruct (st !! key) as [s0|] eqn:Es.
    2:{ exfalso. assert (key ∈ dom st) as Hd by (apply Hks; set_solver).
        apply elem_of_dom in Hd as [? Hd]. congruence. }
    case_decide.
    + by exists key, s0, r0.
    + assert (key <> k) by congruence. apply IH; auto. set_solver.
Qed.

Lemma fill_missing_ok rs ks st :
  (forall k, k ∈ ks -> k ∈ dom rs) ->
  exists st', fill_missing rs ks st = Ok st' /\
    dom st' = dom st ∪ list_to_set ks /\
    (forall k, k ∈ ks -> st' !! k = rs !! k) /\
    (forall k, k ∉ ks -> st' !! k = st !! k).
Proof.
  revert st. induction ks as [|k0 ks IH]; intros st Hks; simpl.
  - exists st. split_and!; [done|set_solver|set_solver|done].
  - assert (k0 ∈ dom rs) as Hd by (apply Hks; set_solver).
    apply elem_of_dom in Hd as [v Hv]. rewrite Hv.
    destruct (IH (<[k0:=v]> st)) as (st' & -> & Hd & Hin & Hout).
    { intros; apply Hks; set_solver. }
    exists st'. split_and!; [done| | |].
    + rewrite Hd, dom_insert_L. set_solver.
    + intros k Hk. destruct (decide (k ∈ ks)); [by apply Hin|].
      assert (k = k0) as -> by set_solver.
      rewrite Hout by done. by rewrite lookup_insert_eq.
    + intros k Hk. rewrite Hout by set_solver.
      rewrite lookup_insert_ne; [done|set_solver].
Qed.

Lemma drop_unexpected_ok ks st :
  NoDup ks -> (forall k, k ∈ ks -> k ∈ dom st) ->
  exists st', drop_unexpected ks st = Ok st' /\
    dom st' = dom st ∖ list_to_set ks /\
    (forall k, k ∉ ks -> st' !! k = st !! k).
Proof.
  revert st. induction ks as [|k0 ks IH]; intros st Hnd Hks; simpl.
  - exists st. split_and!; [done|set_solver|done].
  - apply NoDup_cons in Hnd as [Hk0 Hnd].
    assert (k0 ∈ dom st) as Hd by (apply Hks; set_solver).
    apply elem_of_dom in Hd as [v Hv]. rewrite Hv.
    destruct (IH (delete k0 st)) as (st' & -> & Hd & Hout); [done| |].
    { intros k Hk. rewrite dom_delete_L. apply elem_of_difference. split.
      - apply Hks. set_solver.
      - intros ->%elem_of_singleton. done. }
    exists st'. split_and!; [done| |].
    + rewrite Hd, dom_delete_L. set_solver.
    + intros k Hk. rewrite Hout by set_solver.
      rewrite lookup_delete_ne; [done|set_solver].
Qed.

Lemma state_keys_dom (state : gmap fkey Tensor) k :
  k ∈ (map_to_list state).*1 -> k ∈ dom state.
Proof.
  intros ([k' v] & -> & Hin)%list_elem_of_fmap.
  apply elem_of_map_to_list in Hin. simpl. by eapply elem_of_dom_2.
Qed.

(** What [reconcile] does once the shape-mismatch loop has returned. *)
Lemma reconcile_after_loop (ig : bool) (p state st1 : gmap fkey Tensor) (mm : list mismatch) :
  mismatch_loop ig p ((map_to_list state).*1) state [] = Ok (st1, mm) ->
  exists res, reconcile ig (init_model p) state = Ok (res, mm) /\
    dom res = dom p /\
    (forall k, k ∈ dom p -> k ∉ dom state -> res !! k = p !! k) /\
    (forall k, k ∈ dom p -> k ∈ dom state -> res !! k = st1 !! k).
Proof.
  intros E. unfold reconcile, init_model. cbn [params required_params].
  unfold mbind, result_bind. rewrite E. cbn beta iota.
  apply mismatch_loop_ok_inv in E as (Hd1 & _ & _ & _).
  destruct (fill_missing_ok p (elements (dom p ∖ dom state)) st1)
    as (st2 & -> & Hd2 & Hin2 & Hout2).
  { intros k Hk%elem_of_elements. set_solver. }
  destruct (drop_unexpected_ok (elements (dom state ∖ dom p)) st2)
    as (st3 & -> & Hd3 & Hout3).
  { apply NoDup_elements. }
  { intros k Hk%elem_of_elements. rewrite Hd2, Hd1. set_solver. }
  exists st3. rewrite !list_to_set_elements_L in Hd2, Hd3. split_and!.
  - done.
  - rewrite Hd3, Hd2, Hd1. apply set_eq. intros k.
    rewrite !elem_of_difference, elem_of_union, !elem_of_difference.
    destruct (decide (k ∈ dom state)), (decide (k ∈ dom p)); tauto.
  - intros k Hp Hs. rewrite Hout3 by (rewrite elem_of_elements, elem_of_difference; tauto).
    apply Hin2. rewrite elem_of_elements, elem_of_difference. tauto.
  - intros k Hp Hs. rewrite Hout3 by (rewrite elem_of_elements, elem_of_difference; tauto).
    apply Hout2. rewrite elem_of_elements, elem_of_difference. tauto.
Qed.

(** Claim C1: for every freshly-initialized parameter tree [p] (so that
    [required_params] is its flat key set) and every flattened checkpoint
    [state], reconciliation either fails, and then only because a key
    present in both has a different shape while mismatches are not
    permitted (never because of a missing or an unexpected key), or
    returns a flat mapping whose key set is exactly the required set,
    holding the freshly-initialized value at every key missing from the
    checkpoint and none of the unexpected keys.  It does return whenever
    mismatches are permitted or no shapes differ. *)
Theorem from_pretrained_key_set (ignore_mismatched_sizes : bool) (p state : gmap fkey Tensor) :
  match reconcile ignore_mismatched_sizes (init_model p) state with
  | Ok (res, _) =>
      dom res = required_params (init_model p) /\
      (forall k, k ∈ required_params (init_model p) -> k ∉ dom state -> res !! k = p !! k) /\
      (forall k, k ∈ dom state -> k ∉ required_params (init_model p) -> res !! k = None)
  | Err e =>
      exists k s r, e = ShapeMismatchError k (shape s) (shape r) /\
        ignore_mismatched_sizes = false /\
        state !! k = Some s /\ p !! k = Some r /\ shape s <> shape r
  end /\
  ((ignore_mismatched_sizes = true \/
    forall k s r, state !! k = Some s -> p !! k = Some r -> shape s = shape r) ->
   is_ok (reconcile ignore_mismatched_sizes (init_model p) state) = true).
Proof.
  destruct (mismatch_loop ignore_mismatched_sizes p ((map_to_list state).*1) state [])
    as [[st1 mm]|e] eqn:E.
  - apply reconcile_after_loop in E as (res & -> & Hd & Hmiss & _).
    simpl. split; [|done]. split_and!; [done|done|].
    intros k Hs Hp. apply not_elem_of_dom. rewrite Hd. done.
  - assert (reconcile ignore_mismatched_sizes (init_model p) state = Err e) as ->.
    { unfold reconcile, init_model. cbn [params required_params].
      unfold mbind, result_bind. by rewrite E. }
    apply mismatch_loop_err in E as (k & s & r & -> & Hig & Hs & Hr & Hne);
      [|apply state_keys_dom].
    split; [by exists k, s, r|].
    intros [-> | Hsame]; [discriminate|]. exfalso. eauto.
Qed.

(** Claim C2: for a key [k] present both in the checkpoint and in the
    freshly-initialized parameters with different shapes: by default
    ([ignore_mismatched_sizes = false]) loading fails with the
    shape-mismatch error, naming an offending key (one present in both with
    differing shapes; [k] itself when it is the only one) with its
    checkpoint shape and its model shape; with mismatches permitted,
    loading succeeds, the result holds the freshly-initialized value at
    [k], and [(k, checkpoint shape, model shape)] is recorded. *)
Theorem from_pretrained_shape_mismatch (p state : gmap fkey Tensor) k s r :
  state !! k = Some s -> p !! k = Some r -> shape s <> shape r ->
  (exists k' s' r',
      reconcile false (init_model p) state = Err (ShapeMismatchError k' (shape s') (shape r')) /\
      state !! k' = Some s' /\ p !! k' = Some r' /\ shape s' <> shape r' /\
      ((forall k'', k'' <> k -> forall s'' r'', state !! k'' = Some s'' -> p !! k'' = Some r'' ->
          shape s'' = shape r'') -> k' = k)) /\
  (exists res mm,
      reconcile true (init_model p) state = Ok (res, mm) /\
      res !! k = Some r /\ (k, shape s, shape r) ∈ mm).
Proof.
  intros Hs Hr Hne.
  assert (k ∈ (map_to_list state).*1) as Hk.
  { apply list_elem_of_fmap. exists (k, s). split; [done|]. by apply elem_of_map_to_list. }
  split.
  - destruct (mismatch_loop_false_hit p ((map_to_list state).*1) state [] k s r)
      as (k' & s' & r' & E & Hs' & Hr' & Hne'); [apply state_keys_dom|done..|].
    exists k', s', r'. split_and!; [|done..|].
    + unfold reconcile, init_model. cbn [params required_params].
      unfold mbind, result_bind. by rewrite E.
    + intros Honly. destruct (decide (k' = k)) as [|Hk']; [done|].
      exfalso. eapply Hne', Honly; eauto.
  - destruct (mismatch_loop true p ((map_to_list state).*1) state []) as [[st1 mm]|e] eqn:E.
    + pose proof (mismatch_loop_true_hit _ _ _ _ _ _ _ _ _ Hk Hs Hr Hne E) as [H1 H2].
      apply reconcile_after_loop in E as (res & -> & _ & _ & Hcommon).
      exists res, mm. split_and!; [done| |done].
      rewrite Hcommon; [done| |]; by eapply elem_of_dom_2.
    + apply mismatch_loop_err in E as (? & ? & ? & _ & ? & _); [discriminate|].
      apply state_keys_dom.
Qed.

End ReconcileFacts.

(** ** Attention setup *)
Module AttentionFacts.

(** Claim C7: [FlaxBartAttention.setup] succeeds exactly when the
    embedding width is divisible by the number of heads, in Python's
    sense ([embed_dim % num_heads == 0], which raises for zero heads);
    otherwise it raises. *)
Theorem attention_setup_ok_iff (embed_dim num_heads : Z) :
  is_ok (Attention.setup embed_dim num_heads) = true <->
  num_heads <> 0 /\ embed_dim mod num_heads = 0.
Proof.
  unfold Attention.setup. case_decide as Hz; simpl.
  - split; [discriminate|]. intros [? _]. contradiction.
  - pose proof (Z.div_mod embed_dim num_heads Hz) as Hdm.
    case_decide as Hne; simpl.
    + split; [discriminate|]. intros [_ Hm]. exfalso. apply Hne. lia.
    + split; [|done]. intros _. split; [done|]. lia.
Qed.

End AttentionFacts.

(** ** Parameter shapes and the output projection *)
Module ParamsFacts.
Import Params.

Lemma assoc_tree_map {A B} (f : A -> B) k (kids : list (string * ptree A)) :
  assoc k (map (fun '(k', c) => (k', tree_map f c)) kids) = tree_map f <$> assoc k kids.
Proof.
  induction kids as [|[k' c] kids IH]; simpl; [done|].
  destruct (String.eqb k k'); [done|exact IH].
Qed.

Lemma lookup_path_tree_map {A B} (f : A -> B) path (t : ptree A) :
  lookup_path path (tree_map f t) =
    match lookup_path path t with Ok c => Ok (tree_map f c) | Err e => Err e end.
Proof.
  revert t. induction path as [|k ks IH]; intros t; simpl; [done|].
  destruct t as [a|kids]; simpl; [done|].
  rewrite assoc_tree_map. destruct (assoc k kids); simpl; [apply IH|done].
Qed.

(** A parameter tree with the shapes created by [setup]: the key found at
    [path] in it is a leaf whose tensor has the shape found in
    [init_shapes]. *)
Lemma leaf_of_shapes cfg (params : ptree Tensor) path sh :
  tree_map shape params = init_shapes cfg ->
  lookup_path path (init_shapes cfg) = Ok (PLeaf sh) ->
  exists t, leaf (lookup_path path params) = Ok t /\ shape t = sh.
Proof.
  intros Hp Hl. rewrite <- Hp, lookup_path_tree_map in Hl.
  destruct (lookup_path path params) as [[t|kids]|e]; simpl in Hl; try discriminate.
  injection Hl as <-. by exists t.
Qed.

Lemma lookup_err_of_shapes cfg (params : ptree Tensor) path e :
  tree_map shape params = init_shapes cfg ->
  lookup_path path (init_shapes cfg) = Err e ->
  lookup_path path params = Err e.
Proof.
  intros Hp Hl. rewrite <- Hp, lookup_path_tree_map in Hl.
  destruct (lookup_path path params); [discriminate|congruence].
Qed.

Lemma dense_apply_shape kernel h out :
  dense_apply kernel h = Ok out -> exists din dout, shape kernel = [din; dout] /\ shape out = [dout].
Proof.
  unfold dense_apply.
  destruct (shape kernel) as [|din [|dout [|]]]; try discriminate.
  destruct (shape h) as [|dh [|]]; try discriminate.
  case_decide; [|discriminate]. intros [= <-]. by exists din, dout.
Qed.

(** Claim C9: the decoder's token-embedding table has
    [image_vocab_size + 1] rows (of width [d_model]), the [lm_head]
    kernel maps [d_model] to [image_vocab_size + 1] features, and every
    vector of logits the output projection returns, for parameters of the
    shapes [setup] creates, has [image_vocab_size + 1] entries. *)
Theorem decoder_vocab_size (cfg : config) (params : ptree Tensor) (hidden_state logits : Tensor)
    (Hp : tree_map shape params = init_shapes cfg)
    (Hl : lm_logits cfg params hidden_state = Ok logits) :
  lookup_path ["model"; "decoder"; "embed_tokens"; "embedding"] (init_shapes cfg)
    = Ok (PLeaf [image_vocab_size cfg + 1; d_model cfg])%nat /\
  lookup_path ["lm_head"; "kernel"] (init_shapes cfg)
    = Ok (PLeaf [d_model cfg; image_vocab_size cfg + 1])%nat /\
  shape logits = [image_vocab_size cfg + 1]%nat.
Proof.
  split; [reflexivity|]. split; [reflexivity|].
  unfold lm_logits in Hl. destruct (tie_word_embeddings cfg).
  - rewrite (lookup_err_of_shapes cfg params _ (KeyError ["shared"])) in Hl by done.
    discriminate.
  - destruct (leaf_of_shapes cfg params ["lm_head"; "kernel"] [d_model cfg; image_vocab_size cfg + 1]%nat)
      as (t & Ht & Hsh); [done|reflexivity|].
    rewrite Ht in Hl. cbn in Hl.
    apply dense_apply_shape in Hl as (din & dout & Hk & Ho).
    rewrite Hsh in Hk. injection Hk as _ Hd. rewrite Ho, Hd. done.
Qed.

(** Claim C5 (as the code has it): with [tie_word_embeddings] set, the
    projection looks the table up as [self.model.variables["params"]["shared"]["embedding"]];
    the [model] submodule built by [FlaxBartModule.setup] has no [shared]
    table (only [encoder] and [decoder], each with its own
    [embed_tokens]), so for parameters of the shapes [setup] creates the
    projection raises [KeyError('shared')] instead of using the decoder's
    table transposed. *)
Theorem tied_projection_missing_shared (cfg : config) (params : ptree Tensor) (hidden_state : Tensor)
    (Htie : tie_word_embeddings cfg = true)
    (Hp : tree_map shape params = init_shapes cfg) :
  lm_logits cfg params hidden_state = Err (KeyError ["shared"]).
Proof.
  unfold lm_logits. rewrite Htie.
  rewrite (lookup_err_of_shapes cfg params _ (KeyError ["shared"])) by done.
  reflexivity.
Qed.

End ParamsFacts.

(** ** Decoding *)
Module DecodeFacts.
Import Params Decode.

(** Claim C4: [decode] with a cache ([past_key_values] given) and no
    [decoder_position_ids] raises, whatever the module and the other
    arguments: [ValueError] about the missing position ids, unless the
    default encoder mask could not even be built from a hidden-state
    array of fewer than two dimensions (then the unpacking raises first).
    The module is never applied, so no position ids are defaulted. *)
Theorem decode_cache_needs_position_ids {Out} (module_apply : module_inputs -> result Out)
    (decoder_input_ids : Mat) (encoder_hidden_states : Tensor)
    (encoder_attention_mask decoder_attention_mask : option Mat) (cache : ptree Tensor) :
  decode module_apply decoder_input_ids encoder_hidden_states
    encoder_attention_mask decoder_attention_mask None (Some cache) =
  Err (match encoder_attention_mask, shape encoder_hidden_states with
       | None, [] | None, [_] => LibraryError "ValueError: not enough values to unpack"
       | _, _ => MissingPositionIdsError
       end).
Proof.
  unfold decode. unfold mbind, result_bind.
  destruct encoder_attention_mask as [m|]; [reflexivity|].
  destruct (shape encoder_hidden_states) as [|b [|s rest]]; reflexivity.
Qed.

(** Claim C10: [decode] without a cache, whichever of the position ids,
    the decoder mask and the encoder mask are supplied, calls the module
    with the supplied ones and, for each omitted one, its default:
    position ids [0..seq_length-1] for every batch row, an all-ones
    decoder mask of shape [(batch, seq_length)], an all-ones encoder mask
    over [encoder_hidden_states.shape[:2]]; with no cache and nothing
    mutable.  It raises nothing of its own. *)
Theorem decode_defaults_without_cache {Out} (module_apply : module_inputs -> result Out)
    (decoder_input_ids : Mat) (encoder_hidden_states : Tensor)
    (encoder_attention_mask decoder_attention_mask decoder_position_ids : option Mat)
    (b s : nat) (rest : list nat)
    (Hsh : shape encoder_hidden_states = b :: s :: rest) :
  decode module_apply decoder_input_ids encoder_hidden_states encoder_attention_mask
    decoder_attention_mask decoder_position_ids None =
  module_apply
    {| mi_decoder_input_ids := decoder_input_ids;
       mi_decoder_attention_mask :=
         default (ones (mrows decoder_input_ids) (mcols decoder_input_ids)) decoder_attention_mask;
       mi_decoder_position_ids :=
         default (arange_broadcast (mrows decoder_input_ids) (mcols decoder_input_ids)) decoder_position_ids;
       mi_encoder_hidden_states := encoder_hidden_states;
       mi_encoder_attention_mask := default (ones b s) encoder_attention_mask;
       mi_cache := None;
       mi_mutable := false |}.
Proof.
  unfold decode. unfold mbind, result_bind.
  destruct encoder_attention_mask as [em|]; [|rewrite Hsh];
    destruct decoder_attention_mask, decoder_position_ids; reflexivity.
Qed.


Lemma sumZ_app l1 l2 : sumZ (l1 ++ l2) = sumZ l1 + sumZ l2.
Proof. induction l1 as [|x l1 IH]; simpl; [done|]. unfold sumZ in *. lia. Qed.

Lemma cumsum_minus_one_step (m : Mat) i j :
  mget (cumsum_minus_one m) i (S j) = mget (cumsum_minus_one m) i j + mget m i (S j).
Proof.
  unfold cumsum_minus_one. cbn [mget].
  rewrite (seq_S (S j) 0), map_app, sumZ_app. cbn [map Nat.add].
  unfold sumZ at 2. cbn [fold_right]. lia.
Qed.

Lemma mapM_ext {A B} (f f' : A -> result B) (l : list A) :
  (forall x, f x = f' x) -> mapM f l = mapM f' l.
Proof. intros Hf. induction l as [|x l IH]; cbn [mapM]; [done|]. rewrite Hf, IH. reflexivity. Qed.

Lemma mapM_uniform {Y X} (m : result Y) (g : nat -> Y -> X) (l : list nat) :
  mapM (fun i => y ← m; Ok (g i y)) l =
  match l with [] => Ok [] | _ :: _ => y ← m; Ok (map (fun i => g i y) l) end.
Proof.
  destruct l as [|x l]; [done|]. destruct m as [y|e]; [|done].
  revert x. induction l as [|x' l IH]; intros x; [done|].
  cbn [mapM]. unfold mbind at 1 2, result_bind at 1 2. cbn.
  specialize (IH x'). cbn [mapM] in IH. unfold mbind at 1, result_bind at 1 in IH. cbn in IH.
  destruct (mapM _ l) as [ys|e]; [|discriminate]. injection IH as IH. rewrite <- IH. reflexivity.
Qed.

Lemma init_cache_ok (cfg : config) (b : nat) (ml : Z) (enc : Tensor) (c : ptree Tensor) :
  init_cache cfg b ml enc = Ok c <->
  0 <= ml /\ Z.to_nat ml <> 0%nat /\ ~ (image_length cfg = 0%nat /\ b <> 0%nat) /\
  decoder_layers cfg <> 0%nat /\
  exists hd,
    Attention.setup (Z.of_nat (d_model cfg)) (Z.of_nat (decoder_attention_heads cfg)) = Ok hd /\
    causal_mask_check (image_length cfg) (Z.to_nat ml) = Ok tt /\
    cross_attention_check (d_model cfg) b enc = Ok tt /\
    c = PNode [("model", PNode [("decoder", PNode [("layers", PNode
          (map (fun i => (layer_name i, layer_cache b (Z.to_nat ml) (decoder_attention_heads cfg) (Z.to_nat hd)))
               (seq 0 (decoder_layers cfg))))])])].
Proof.
  unfold init_cache, ones_checked.
  set (L := Z.to_nat ml).
  set (r := Attention.setup (Z.of_nat (d_model cfg)) (Z.of_nat (decoder_attention_heads cfg))).
  set (c1 := causal_mask_check (image_length cfg) L).
  set (c2 := cross_attention_check (d_model cfg) b enc).
  rewrite (mapM_ext _ (fun i => hd ← (hd ← r; _ ← c1; _ ← c2; Ok hd);
                               Ok (layer_name i, layer_cache b L (decoder_attention_heads cfg) (Z.to_nat hd)))).
  2:{ intros i. destruct r as [hd|e]; [|done]. destruct c1 as [[]|e]; [|done]. destruct c2 as [[]|e]; done. }
  rewrite mapM_uniform.
  unfold mbind, result_bind.
  case_decide as Hneg; [split; [discriminate|lia]|].
  case_decide as HL; [split; [discriminate|lia]|].
  case_decide as Hil; [split; [discriminate|tauto]|].
  destruct (decoder_layers cfg) as [|n] eqn:En; cbn [seq].
  { split; [discriminate|lia]. }
  destruct r as [hd|e]; [|split; [discriminate|intros (_ & _ & _ & _ & hd & Hr & _); discriminate]].
  destruct c1 as [[]|e]; [|split; [discriminate|intros (_ & _ & _ & _ & hd' & Hr & Hc1 & _); discriminate]].
  destruct c2 as [[]|e]; [|split; [discriminate|intros (_ & _ & _ & _ & hd' & Hr & Hc1 & Hc2 & _); discriminate]].
  split.
  - intros [= <-]. split_and!; try done; try lia. exists hd. done.
  - intros (_ & _ & _ & _ & hd' & Hr & _ & _ & ->). injection Hr as ->. reflexivity.
Qed.

Lemma causal_mask_check_ok (il L : nat) : causal_mask_check il L = Ok tt <-> (L <= il)%nat.
Proof. unfold causal_mask_check. case_decide; [done|]. case_decide; split; try discriminate; lia. Qed.

Lemma cross_attention_check_rank3 (d b b' s f : nat) (enc : Tensor) :
  shape enc = [b'; s; f] -> cross_attention_check d b enc = Ok tt <-> b' = b.
Proof.
  intros Hs. unfold cross_attention_check. rewrite Hs. cbn [removelast app foldr].
  rewrite decide_True by lia. case_decide; split; congruence.
Qed.


(** Claim C6: whenever [prepare_inputs_for_generation] returns (target
    maximum length [max_length]): [max_length - 1] is a valid width; the
    cache is a fresh one, one entry per decoder layer, each holding zero
    key and value buffers of [max_length - 1] positions and a cursor
    [cache_index] at 0; the decoder attention mask has shape
    [(batch, max_length - 1)], equal to the supplied decoder mask on the
    leading block it covers (which fits) and to 1 elsewhere; the position
    ids are the cumulative sums of the supplied mask minus one (so a
    masked position does not advance the index), or [0..seq_length-1]
    without a mask. *)
Theorem prepare_inputs_for_generation_spec (cfg : config) (decoder_input_ids : Mat)
    (max_length : Z) (attention_mask decoder_attention_mask : option Mat)
    (encoder_outputs : Tensor) (g : gen_inputs)
    (H : prepare_inputs_for_generation cfg decoder_input_ids max_length attention_mask
           decoder_attention_mask encoder_outputs = Ok g) :
  0 <= max_length - 1 /\
  (exists head_dim,
      g_past_key_values g =
      PNode [("model", PNode [("decoder", PNode [("layers", PNode
        (map (fun i => (layer_name i,
                        layer_cache (mrows decoder_input_ids) (Z.to_nat (max_length - 1))
                          (decoder_attention_heads cfg) head_dim))
             (seq 0 (decoder_layers cfg))))])])]) /\
  mrows (g_decoder_attention_mask g) = mrows decoder_input_ids /\
  Z.of_nat (mcols (g_decoder_attention_mask g)) = max_length - 1 /\
  (forall i j, (i < mrows decoder_input_ids)%nat -> (j < mcols (g_decoder_attention_mask g))%nat ->
     mget (g_decoder_attention_mask g) i j =
       match decoder_attention_mask with
       | Some m => if Nat.ltb i (mrows m) && Nat.ltb j (mcols m) then mget m i j else 1
       | None => 1
       end) /\
  match decoder_attention_mask with
  | Some m =>
      (mrows m <= mrows decoder_input_ids)%nat /\
      (Z.of_nat (mcols m) <= max_length - 1) /\
      g_decoder_position_ids g = cumsum_minus_one m /\
      (forall i, mget (g_decoder_position_ids g) i 0 = mget m i 0 - 1) /\
      (forall i j, mget (g_decoder_position_ids g) i (S j) =
                   mget (g_decoder_position_ids g) i j + mget m i (S j))
  | None =>
      g_decoder_position_ids g = arange_broadcast (mrows decoder_input_ids) (mcols decoder_input_ids)
  end.
Proof.
  unfold prepare_inputs_for_generation in H. unfold mbind, result_bind in H.
  destruct (init_cache cfg (mrows decoder_input_ids) (max_length - 1) encoder_outputs) as [cache|e] eqn:Ec;
    [|discriminate].
  unfold ones_checked in H. case_decide as Hneg; [discriminate|].
  assert (exists head_dim, cache =
      PNode [("model", PNode [("decoder", PNode [("layers", PNode
        (map (fun i => (layer_name i,
                        layer_cache (mrows decoder_input_ids) (Z.to_nat (max_length - 1))
                          (decoder_attention_heads cfg) head_dim))
             (seq 0 (decoder_layers cfg))))])])]) as [hd Hcache].
  { apply init_cache_ok in Ec as (_ & _ & _ & _ & hd & _ & _ & _ & ->). by exists (Z.to_nat hd). }
  destruct decoder_attention_mask as [m|].
  - unfold dynamic_update_slice in H. case_decide as Hfit; [|discriminate].
    injection H as <-. cbn [ones mrows mcols] in Hfit. destruct Hfit as [Hr Hc].
    cbn [g_past_key_values g_decoder_attention_mask g_decoder_position_ids mrows mcols mget].
    split_and!.
    + lia.
    + by exists hd.
    + reflexivity.
    + lia.
    + intros i j _ _. reflexivity.
    + exact Hr.
    + lia.
    + reflexivity.
    + intros i. cbn. lia.
    + intros i j. apply cumsum_minus_one_step.
  - injection H as <-.
    cbn [g_past_key_values g_decoder_attention_mask g_decoder_position_ids mrows mcols mget ones].
    split_and!.
    + lia.
    + by exists hd.
    + reflexivity.
    + lia.
    + intros i j _ _. reflexivity.
    + reflexivity.
Qed.

End DecodeFacts.

(** ** Reading the checkpoint file *)
Module LoadFacts.
Import Load.


(** Claim C8, as stated, fails: a file that [from_bytes] cannot
    deserialize with an exception other than [UnpicklingError] or
    [msgpack.exceptions.ExtraData] (msgpack raises [ValueError("Unpack
    failed: incomplete input")] on an empty or truncated file) gets
    neither the git-lfs diagnostic nor the generic "Unable to convert"
    one: the library exception propagates unchanged. *)
Lemma load_state_other_error_propagates :
  ~ (forall (from_bytes : list Byte.byte -> deserialized)
            (read_text : list Byte.byte -> option string) (contents : list Byte.byte),
       (forall state, from_bytes contents <> Deserialized state) ->
       load_state from_bytes read_text contents =
         Err (if has_marker read_text contents then GitLfsError else ConvertError)).
Proof.
  intros Hclaim.
  specialize (Hclaim (fun _ => OtherDeserError "ValueError: Unpack failed: incomplete input")
                     (fun _ => Some ""%string) []).
  discriminate Hclaim. intros state. discriminate.
Qed.

(** Claim C8 (amended): when the checkpoint cannot be deserialized,
    loading aborts with an exception; if [from_bytes] raised
    [UnpicklingError] or [ExtraData], it is the git-lfs diagnostic when
    the file's text starts with ["version"] and the generic "Unable to
    convert" diagnostic otherwise (also when the file is not text); any
    other deserialization exception propagates unchanged. *)
Theorem load_state_format_errors (from_bytes : list Byte.byte -> deserialized)
    (read_text : list Byte.byte -> option string) (contents : list Byte.byte)
    (Hfail : forall state, from_bytes contents <> Deserialized state) :
  exists e, load_state from_bytes read_text contents = Err e /\
    ((from_bytes contents = UnpicklingError \/ from_bytes contents = ExtraData) ->
       e = if has_marker read_text contents then GitLfsError else ConvertError) /\
    (forall name, from_bytes contents = OtherDeserError name -> e = LibraryError name).
Proof.
  unfold load_state, has_marker.
  destruct (from_bytes contents) as [state| | |name] eqn:Ef.
  - exfalso. by apply (Hfail state).
  - destruct (read_text contents) as [text|];
      [destruct (String.prefix "version" text)|];
      eexists; (split; [reflexivity|]); split; intros; try discriminate; reflexivity.
  - destruct (read_text contents) as [text|];
      [destruct (String.prefix "version" text)|];
      eexists; (split; [reflexivity|]); split; intros; try discriminate; reflexivity.
  - eexists; (split; [reflexivity|]). split.
    + intros [?|?]; discriminate.
    + intros n [= ->]. reflexivity.
Qed.

End LoadFacts.

(** ** Checkpoint reconciliation: invariants *)
Module ReconcileInvariants.
Import Reconcile ReconcileFacts.

(** A value of the state is replaced only at a key whose checkpoint shape
    differs from the model's, and then by the model's value. *)
Lemma mismatch_loop_overwrite ig rs ks st mm st' mm' :
  mismatch_loop ig rs ks st mm = Ok (st', mm') ->
  forall k, st' !! k = st !! k \/
    exists s r, st !! k = Some s /\ rs !! k = Some r /\ shape s <> shape r /\ st' !! k = Some r.
Proof.
  revert st mm. induction ks as [|key ks IH]; intros st mm H k; simpl in H.
  - injection H as <- <-. by left.
  - destruct (rs !! key) as [r|] eqn:Er; [|exact (IH _ _ H k)].
    destruct (st !! key) as [s|] eqn:Es; [|discriminate].
    case_decide as Hne; [|exact (IH _ _ H k)].
    destruct ig; [|discriminate].
    destruct (IH _ _ H k) as [Hk|(s1 & r1 & Hs1 & Hr1 & Hne1 & Hk)].
    + destruct (decide (key = k)) as [<-|Hkey].
      * right. exists s, r. rewrite Hk, lookup_insert_eq. done.
      * left. rewrite Hk, lookup_insert_ne by done. done.
    + destruct (decide (key = k)) as [<-|Hkey].
      * rewrite lookup_insert_eq in Hs1. injection Hs1 as <-. congruence.
      * rewrite lookup_insert_ne in Hs1 by done. right. by exists s1, r1.
Qed.

(** Every recorded entry is a key of the state and of the model whose
    shapes differ, with those shapes. *)
Lemma mismatch_loop_entries ig rs ks st mm st' mm' :
  mismatch_loop ig rs ks st mm = Ok (st', mm') ->
  forall x, x ∈ mm' -> x ∈ mm \/
    exists k s r, x = (k, shape s, shape r) /\ st !! k = Some s /\ rs !! k = Some r /\
      shape s <> shape r.
Proof.
  revert st mm. induction ks as [|key ks IH]; intros st mm H x Hx; simpl in H.
  - injection H as <- <-. by left.
  - destruct (rs !! key) as [r|] eqn:Er; [|exact (IH _ _ H x Hx)].
    destruct (st !! key) as [s|] eqn:Es; [|discriminate].
    case_decide as Hne; [|exact (IH _ _ H x Hx)].
    destruct ig; [|discriminate].
    destruct (IH _ _ H x Hx) as [Hin|(k & s1 & r1 & -> & Hs1 & Hr1 & Hne1)].
    + apply elem_of_app in Hin as [Hin|Hin]; [by left|].
      apply list_elem_of_singleton in Hin as ->. right. by exists key, s, r.
    + destruct (decide (key = k)) as [<-|Hkey].
      * rewrite lookup_insert_eq in Hs1. injection Hs1 as <-. congruence.
      * rewrite lookup_insert_ne in Hs1 by done. right. by exists k, s1, r1.
Qed.

(** No key is recorded twice. *)
Lemma mismatch_loop_nodup ig rs ks st mm st' mm' :
  (forall x, x ∈ mm -> st !! x.1.1 = rs !! x.1.1) ->
  NoDup (mm.*1.*1) ->
  mismatch_loop ig rs ks st mm = Ok (st', mm') ->
  NoDup (mm'.*1.*1).
Proof.
  revert st mm. induction ks as [|key ks IH]; intros st mm Hinv Hnd H; simpl in H.
  - by injection H as <- <-.
  - destruct (rs !! key) as [r|] eqn:Er; [|exact (IH _ _ Hinv Hnd H)].
    destruct (st !! key) as [s|] eqn:Es; [|discriminate].
    case_decide as Hne; [|exact (IH _ _ Hinv Hnd H)].
    destruct ig; [|discriminate].
    refine (IH _ _ _ _ H).
    + intros x Hx. apply elem_of_app in Hx as [Hx|Hx].
      * destruct (decide (key = x.1.1)) as [<-|Hkey].
        -- by rewrite lookup_insert_eq.
        -- rewrite lookup_insert_ne by done. by apply Hinv.
      * apply list_elem_of_singleton in Hx as ->. simpl. by rewrite lookup_insert_eq.
    + rewrite !fmap_app. apply NoDup_app. split_and!; [done| |apply NoDup_singleton].
      intros k Hk Hk'. apply list_elem_of_singleton in Hk' as ->.
      apply list_elem_of_fmap in Hk as (y & Hy & Hk).
      apply list_elem_of_fmap in Hk as (x & -> & Hx).
      apply Hinv in Hx. destruct x as [[kx s1] s2]. simpl in Hy, Hx. subst kx.
      rewrite Es, Er in Hx. injection Hx as ->. done.
Qed.

(** In strict mode a successful loop neither records nor replaces anything. *)
Lemma mismatch_loop_strict rs ks st mm st' mm' :
  mismatch_loop false rs ks st mm = Ok (st', mm') -> st' = st /\ mm' = mm.
Proof.
  revert st mm. induction ks as [|key ks IH]; intros st mm H; simpl in H.
  - by injection H as <- <-.
  - destruct (rs !! key) as [r|]; [|exact (IH _ _ H)].
    destruct (st !! key) as [s|]; [|discriminate].
    case_decide; [discriminate|exact (IH _ _ H)].
Qed.

(** A loop over keys of the state that all have the model's shapes changes
    nothing. *)
Lemma mismatch_loop_clean ig rs ks st mm :
  (forall k r, k ∈ ks -> rs !! k = Some r -> exists s, st !! k = Some s /\ shape s = shape r) ->
  mismatch_loop ig rs ks st mm = Ok (st, mm).
Proof.
  revert mm. induction ks as [|key ks IH]; intros mm Hok; simpl; [done|].
  assert (forall k r, k ∈ ks -> rs !! k = Some r -> exists s, st !! k = Some s /\ shape s = shape r)
    as Hok' by (intros k r Hk; apply Hok; set_solver).
  destruct (rs !! key) as [r|] eqn:Er; [|by apply IH].
  destruct (Hok key r ltac:(set_solver) Er) as (s & -> & Hsh).
  rewrite decide_False by (intros Hne; exact (Hne Hsh)). by apply IH.
Qed.

Lemma state_key_in (state : gmap fkey Tensor) k s :
  state !! k = Some s -> k ∈ (map_to_list state).*1.
Proof.
  intros Hs. apply list_elem_of_fmap. exists (k, s). split; [done|]. by apply elem_of_map_to_list.
Qed.

Lemma reconcile_loop_ok ig p state res mm :
  reconcile ig (init_model p) state = Ok (res, mm) ->
  exists st1, mismatch_loop ig p ((map_to_list state).*1) state [] = Ok (st1, mm) /\
    dom res = dom p /\
    (forall k, k ∈ dom p -> k ∉ dom state -> res !! k = p !! k) /\
    (forall k, k ∈ dom p -> k ∈ dom state -> res !! k = st1 !! k).
Proof.
  intros H.
  destruct (mismatch_loop ig p ((map_to_list state).*1) state []) as [[st1 mm1]|e] eqn:E.
  - destruct (reconcile_after_loop ig p state st1 mm1 E) as (res' & Hr & Hd & Hm & Hc).
    rewrite H in Hr. injection Hr as <- <-. by exists st1.
  - exfalso. unfold reconcile, init_model in H. cbn [params required_params] in H.
    unfold mbind, result_bind in H. rewrite E in H. discriminate.
Qed.

(** The value [reconcile] returns at every key. *)
Lemma reconcile_values_at ig p state res mm :
  reconcile ig (init_model p) state = Ok (res, mm) ->
  forall k, res !! k =
    match p !! k with
    | None => None
    | Some r =>
        match state !! k with
        | Some s => if decide (shape s = shape r) then Some s else Some r
        | None => Some r
        end
    end.
Proof.
  intros H k. apply reconcile_loop_ok in H as (st1 & E & Hd & Hmiss & Hcom).
  destruct (p !! k) as [r|] eqn:Er.
  2:{ apply not_elem_of_dom. rewrite Hd. by apply not_elem_of_dom. }
  assert (k ∈ dom p) as Hkp by (by eapply elem_of_dom_2).
  destruct (state !! k) as [s|] eqn:Es.
  2:{ rewrite Hmiss; [done|done|by apply not_elem_of_dom]. }
  rewrite Hcom by (done || by eapply elem_of_dom_2).
  case_decide as Hsh.
  - destruct (mismatch_loop_overwrite _ _ _ _ _ _ _ E k) as [->|(s1 & r1 & Hs1 & Hr1 & Hne & _)];
      [done|congruence].
  - destruct ig.
    + by destruct (mismatch_loop_true_hit _ _ _ _ _ _ _ _ _ (state_key_in _ _ _ Es) Es Er Hsh E).
    + destruct (mismatch_loop_false_hit p _ state [] k s r (state_keys_dom state)
                  (state_key_in _ _ _ Es) Es Er Hsh) as (? & ? & ? & E' & _).
      congruence.
Qed.

(** A checkpoint holding exactly the model's keys, each with the model's
    shape, is returned as it is, with nothing recorded. *)
Lemma reconcile_compatible ig p state :
  dom state = dom p ->
  (forall k s r, state !! k = Some s -> p !! k = Some r -> shape s = shape r) ->
  reconcile ig (init_model p) state = Ok (state, []).
Proof.
  intros Hd Hsh.
  assert (mismatch_loop ig p ((map_to_list state).*1) state [] = Ok (state, [])) as E.
  { apply mismatch_loop_clean. intros k r _ Hr.
    assert (k ∈ dom state) as Hk by (rewrite Hd; by eapply elem_of_dom_2).
    apply elem_of_dom in Hk as [s Hs]. exists s. split; [done|]. by eapply Hsh. }
  unfold reconcile, init_model. cbn [params required_params].
  unfold mbind, result_bind. rewrite E. cbn beta iota.
  rewrite Hd, difference_diag_L, elements_empty. reflexivity.
Qed.

(** The value loading returns at each key: nothing outside the model's
    keys; at a model key, the checkpoint's tensor when the checkpoint has
    that key with the model's shape, and the freshly-initialized tensor
    otherwise. *)
Theorem from_pretrained_values (ignore_mismatched_sizes : bool) (p state res : gmap fkey Tensor)
    (mm : list mismatch)
    (H : reconcile ignore_mismatched_sizes (init_model p) state = Ok (res, mm)) :
  forall k, res !! k =
    match p !! k with
    | None => None
    | Some r =>
        match state !! k with
        | Some s => if decide (shape s = shape r) then Some s else Some r
        | None => Some r
        end
    end.
Proof. exact (reconcile_values_at _ _ _ _ _ H). Qed.

(** A checkpoint with exactly the model's keys and shapes is loaded as it
    is, in either mode, with no mismatch recorded. *)
Theorem from_pretrained_compatible_checkpoint (ignore_mismatched_sizes : bool)
    (p state : gmap fkey Tensor)
    (Hdom : dom state = dom p)
    (Hshape : forall k s r, state !! k = Some s -> p !! k = Some r -> shape s = shape r) :
  reconcile ignore_mismatched_sizes (init_model p) state = Ok (state, []).
Proof. exact (reconcile_compatible _ _ _ Hdom Hshape). Qed.

(** Loading is idempotent: reloading the parameters a load returned, into
    the same freshly-initialized model, returns them unchanged with no
    mismatch, whatever the mode of either load. *)
Theorem from_pretrained_idempotent (ig ig' : bool) (p state res : gmap fkey Tensor)
    (mm : list mismatch)
    (H : reconcile ig (init_model p) state = Ok (res, mm)) :
  reconcile ig' (init_model p) res = Ok (res, []).
Proof.
  apply reconcile_compatible.
  - apply reconcile_loop_ok in H as (_ & _ & Hd & _). exact Hd.
  - intros k s' r Hs' Hr. rewrite (reconcile_values_at _ _ _ _ _ H k), Hr in Hs'.
    destruct (state !! k) as [s|]; [case_decide|]; congruence.
Qed.

(** With mismatches permitted, the recorded list is exactly the keys
    present in both with differing shapes, each with its checkpoint shape
    and its model shape, and no key is recorded twice. *)
Theorem from_pretrained_mismatch_record (p state res : gmap fkey Tensor) (mm : list mismatch)
    (H : reconcile true (init_model p) state = Ok (res, mm)) :
  (forall k s1 s2, (k, s1, s2) ∈ mm <->
     exists s r, state !! k = Some s /\ p !! k = Some r /\
       s1 = shape s /\ s2 = shape r /\ s1 <> s2) /\
  NoDup (mm.*1.*1).
Proof.
  apply reconcile_loop_ok in H as (st1 & E & _). split.
  - intros k s1 s2. split.
    + intros Hin. destruct (mismatch_loop_entries _ _ _ _ _ _ _ E _ Hin)
        as [Hin'|(k' & s & r & Heq & Hs & Hr & Hne)]; [set_solver|].
      injection Heq as -> -> ->. by exists s, r.
    + intros (s & r & Hs & Hr & -> & -> & Hne).
      exact (proj2 (mismatch_loop_true_hit _ _ _ _ _ _ _ _ _ (state_key_in _ _ _ Hs) Hs Hr Hne E)).
  - refine (mismatch_loop_nodup _ _ _ _ _ _ _ _ _ E); [set_solver|apply NoDup_nil_2].
Qed.

(** In the default strict mode a successful load records no mismatch and
    keeps the checkpoint's tensor at every key it shares with the model. *)
Theorem from_pretrained_strict_success (p state res : gmap fkey Tensor) (mm : list mismatch)
    (H : reconcile false (init_model p) state = Ok (res, mm)) :
  mm = [] /\ forall k, k ∈ dom p -> k ∈ dom state -> res !! k = state !! k.
Proof.
  apply reconcile_loop_ok in H as (st1 & E & _ & _ & Hcom).
  apply mismatch_loop_strict in E as [-> ->]. split; [done|exact Hcom].
Qed.

(** Loading never changes the parameter shapes: the result has, key by
    key, the shapes of the freshly-initialized parameters. *)
Theorem from_pretrained_preserves_shapes (ignore_mismatched_sizes : bool)
    (p state res : gmap fkey Tensor) (mm : list mismatch)
    (H : reconcile ignore_mismatched_sizes (init_model p) state = Ok (res, mm)) :
  shape <$> res = shape <$> p.
Proof.
  apply map_eq. intros k. rewrite !lookup_fmap, (reconcile_values_at _ _ _ _ _ H k).
  destruct (p !! k) as [r|]; [|done].
  destruct (state !! k) as [s|]; [case_decide|]; cbn; congruence.
Qed.

End ReconcileInvariants.

(** ** Flattening, prefix handling, logging and parameter counts *)
Module LoadingFacts.
Import Params Reconcile Loading.

Lemma ptree_ind' {A} (P : ptree A -> Prop)
    (Hleaf : forall a, P (PLeaf a))
    (Hnode : forall kids, Forall (fun kc => P kc.2) kids -> P (PNode kids)) :
  forall t, P t.
Proof.
  fix IH 1. intros [a|kids]; [apply Hleaf|apply Hnode].
  revert kids. fix go 1. intros [|[k c] kids]; constructor; [apply IH|apply go].
Qed.

Lemma flatten_items_node {A} (kids : list (string * ptree A)) :
  flatten_items (PNode kids) =
    flat_map (fun '(k, c) => map (fun '(path, a) => (k :: path, a)) (flatten_items c)) kids.
Proof. reflexivity. Qed.

Lemma flatten_items_tree_map {A B} (f : A -> B) (t : ptree A) :
  flatten_items (tree_map f t) = map (fun '(k, a) => (k, f a)) (flatten_items t).
Proof.
  induction t as [a|kids IH] using ptree_ind'; [reflexivity|].
  cbn [tree_map]. rewrite !flatten_items_node.
  induction IH as [|[k c] kids Hc _ IHk]; [reflexivity|].
  cbn [map flat_map]. cbn in Hc. rewrite IHk, Hc, !map_app, !map_map. f_equal.
  apply map_ext. intros [p a]. reflexivity.
Qed.

Lemma flatten_items_head {A} (kids : list (string * ptree A)) p :
  p ∈ (flatten_items (PNode kids)).*1 -> exists k rest, p = k :: rest /\ k ∈ kids.*1.
Proof.
  rewrite flatten_items_node. induction kids as [|[k c] kids IH]; cbn [flat_map]; [set_solver|].
  rewrite fmap_app. intros [Hp|Hp]%elem_of_app.
  - apply list_elem_of_fmap in Hp as ([p' a] & -> & Hp).
    apply list_elem_of_fmap in Hp as ([q b] & Heq & _). injection Heq as -> ->.
    exists k, q. split; [done|]. cbn. set_solver.
  - destruct (IH Hp) as (k' & rest & -> & Hk'). exists k', rest. split; [done|]. cbn. set_solver.
Qed.

Lemma prefixed_keys {A} k (l : list (fkey * A)) :
  (map (fun '(path, a) => (k :: path, a)) l).*1 = cons k <$> l.*1.
Proof. induction l as [|[p a] l IH]; [done|]. cbn. f_equal. exact IH. Qed.

Lemma flatten_items_nodup {A} (t : ptree A) :
  names_unique t -> NoDup (flatten_items t).*1.
Proof.
  induction t as [a|kids IH] using ptree_ind'; intros Hu.
  - apply NoDup_singleton.
  - inversion Hu as [|? Hnd Hall]; subst.
    induction kids as [|[k c] kids IHk]; [apply NoDup_nil_2|].
    inversion IH as [|? ? Hc IH']; subst. inversion Hall as [|? ? Huc Hall']; subst.
    cbn [fmap list_fmap fst] in Hnd. apply NoDup_cons in Hnd as [Hk Hnd].
    cbn in Hc, Huc.
    rewrite flatten_items_node. cbn [flat_map]. rewrite fmap_app, prefixed_keys.
    apply NoDup_app. split_and!.
    + apply NoDup_fmap; [intros ?? [=]; done|]. by apply Hc.
    + intros p Hp Hp'. apply list_elem_of_fmap in Hp as (q & -> & _).
      rewrite <- flatten_items_node in Hp'.
      apply flatten_items_head in Hp' as (k' & rest & [= <- _] & Hk'). done.
    + rewrite <- flatten_items_node. apply IHk; auto. by constructor.
Qed.

Lemma layer_name_inj : Inj eq eq layer_name.
Proof. intros i j H. unfold layer_name in H. apply (inj pretty) in H. lia. Qed.

Lemma names_unique_layers n (layer : ptree (list nat)) :
  names_unique layer -> names_unique (layers_params n layer).
Proof.
  intros Hl. constructor.
  - unfold layers_params. rewrite <- list_fmap_compose.
    apply NoDup_fmap_2; [apply layer_name_inj|apply NoDup_seq].
  - apply Forall_forall. intros kc (i & -> & _)%list_elem_of_fmap. exact Hl.
Qed.

Ltac nodup_names :=
  cbn [fmap list_fmap fst]; apply (bool_decide_unpack _ (dec := NoDup_dec _)); vm_compute; reflexivity.

Ltac solve_names_unique :=
  repeat match goal with
  | |- names_unique (layers_params _ _) => apply names_unique_layers
  | |- names_unique (PLeaf _) => constructor
  | |- names_unique (PNode _) => constructor; [nodup_names|]
  | |- Forall _ [] => constructor
  | |- Forall _ (_ :: _) => constructor; [cbn [snd]|]
  end.

Lemma init_shapes_names_unique cfg : names_unique (init_shapes cfg).
Proof.
  unfold init_shapes, model_params, encoder_layer_params, decoder_layer_params,
    attention_params, embed_params, dense_params, layernorm_params.
  solve_names_unique.
Qed.

Lemma sum_prefixed {A} (f : A -> nat) k (l : list (fkey * A)) :
  sum_list_with (fun kv => f kv.2) (map (fun '(path, a) => (k :: path, a)) l) =
  sum_list_with (fun kv => f kv.2) l.
Proof. induction l as [|[p a] l IH]; [done|]. cbn. by rewrite IH. Qed.

Lemma leaf_sum_node f kids :
  leaf_sum f (PNode kids) = sum_list_with (fun kc => leaf_sum f kc.2) kids.
Proof.
  unfold leaf_sum. rewrite flatten_items_node.
  induction kids as [|[k c] kids IH]; [done|]. cbn [flat_map].
  rewrite sum_list_with_app, sum_prefixed, IH. reflexivity.
Qed.

Lemma leaf_sum_leaf f sh : leaf_sum f (PLeaf sh) = f sh.
Proof. unfold leaf_sum. cbn. lia. Qed.

Lemma leaf_sum_layers f n layer :
  leaf_sum f (layers_params n layer) = (n * leaf_sum f layer)%nat.
Proof.
  unfold layers_params. rewrite leaf_sum_node.
  rewrite <- (length_seq n 0) at 2. generalize (seq 0 n) as l.
  induction l as [|i l IH]; [done|]. cbn [map sum_list_with length snd]. rewrite IH. lia.
Qed.

Ltac expand_leaf_sum :=
  unfold init_shapes, model_params, encoder_layer_params, decoder_layer_params,
    attention_params, embed_params, dense_params, layernorm_params;
  repeat (cbn [sum_list_with snd foldr];
          first [rewrite leaf_sum_layers | rewrite leaf_sum_node | rewrite leaf_sum_leaf]);
  cbn [sum_list_with snd foldr].

Lemma init_shapes_count cfg :
  leaf_sum (foldr Nat.mul 1%nat) (init_shapes cfg) =
    ((encoder_vocab_size cfg + max_text_length cfg + (image_vocab_size cfg + 1) + image_length cfg) * d_model cfg
     + encoder_layers cfg * (4 * d_model cfg * d_model cfg + 2 * d_model cfg * encoder_ffn_dim cfg + 4 * d_model cfg)
     + decoder_layers cfg * (8 * d_model cfg * d_model cfg + 2 * d_model cfg * encoder_ffn_dim cfg + 6 * d_model cfg)
     + 4 * d_model cfg
     + d_model cfg * (image_vocab_size cfg + 1))%nat.
Proof. expand_leaf_sum. ring. Qed.

Lemma init_shapes_leaves cfg :
  leaf_sum (fun _ => 1%nat) (init_shapes cfg) = (9 + 10 * encoder_layers cfg + 16 * decoder_layers cfg)%nat.
Proof. expand_leaf_sum. ring. Qed.

Lemma leaf_sum_length (t : ptree (list nat)) : leaf_sum (fun _ => 1%nat) t = length (flatten_items t).
Proof. unfold leaf_sum. induction (flatten_items t) as [|x l IH]; [done|]. cbn. lia. Qed.

Lemma flatten_keys_tree_map {A B} (f : A -> B) (t : ptree A) :
  (flatten_items (tree_map f t)).*1 = (flatten_items t).*1.
Proof.
  rewrite flatten_items_tree_map. induction (flatten_items t) as [|[k a] l IH]; [done|].
  cbn. f_equal. exact IH.
Qed.

Lemma sum_tree_map_shape (l : list (fkey * Tensor)) :
  sum_list_with (fun kv => param_size kv.2) l =
  sum_list_with (fun kv => foldr Nat.mul 1%nat kv.2) (map (fun '(k, a) => (k, shape a)) l).
Proof. induction l as [|[k a] l IH]; [done|]. cbn. rewrite IH. reflexivity. Qed.

Lemma num_params_shapes cfg (params : ptree Tensor) :
  tree_map shape params = init_shapes cfg ->
  num_params params = leaf_sum (foldr Nat.mul 1%nat) (init_shapes cfg).
Proof.
  intros Hp. unfold num_params, flatten_dict.
  assert (NoDup (flatten_items params).*1) as Hnd.
  { rewrite <- (flatten_keys_tree_map shape), Hp.
    apply flatten_items_nodup, init_shapes_names_unique. }
  rewrite (map_to_list_to_map _ Hnd), sum_tree_map_shape, <- flatten_items_tree_map, Hp.
  reflexivity.
Qed.

Lemma list_to_map_prefixed {A} x (l : list (fkey * A)) k :
  (list_to_map (map (fun '(path, a) => (x :: path, a)) l) : gmap fkey A) !! k =
  match k with
  | [] => None
  | y :: k' => if decide (y = x) then (list_to_map l : gmap fkey A) !! k' else None
  end.
Proof.
  induction l as [|[p a] l IH].
  - destruct k as [|y k']; [done|]. case_decide; done.
  - cbn [map]. rewrite !list_to_map_cons. destruct k as [|y k'].
    + rewrite lookup_insert_ne by done. exact IH.
    + destruct (decide ((x :: p) = y :: k')) as [[= <- <-]|Hne].
      * rewrite decide_True by done. by rewrite !lookup_insert_eq.
      * rewrite lookup_insert_ne by done. rewrite IH.
        case_decide as Hy; [|done]. subst y.
        rewrite lookup_insert_ne; [done|]. intros ->. done.
Qed.

Lemma flatten_dict_single {A} x (t : ptree A) k :
  flatten_dict (PNode [(x, t)]) !! k =
  match k with
  | [] => None
  | y :: k' => if decide (y = x) then flatten_dict t !! k' else None
  end.
Proof.
  unfold flatten_dict. rewrite flatten_items_node. cbn [flat_map]. rewrite app_nil_r.
  apply list_to_map_prefixed.
Qed.

Lemma adjust_prefix_wrap mp st :
  has_key base_model_prefix mp = true -> has_key base_model_prefix st = false ->
  adjust_prefix mp st = PNode [(base_model_prefix, st)].
Proof. intros Hm Hs. unfold adjust_prefix. rewrite Hm, Hs. cbn [negb andb]. rewrite Hs. reflexivity. Qed.

Lemma log_records_warning M U mm :
  Exists (fun r => is_warning r = true) (log_records M U mm) <->
  M <> ∅ \/ U <> ∅ \/ mm <> [].
Proof.
  assert (forall X : gset fkey, (0 < size X)%nat <-> X <> ∅) as Hsz.
  { intros X. split.
    - intros Hlt ->. rewrite size_empty in Hlt. lia.
    - intros Hne. destruct (decide (size X = 0%nat)) as [E|E]; [|lia].
      apply size_empty_iff in E. exfalso. apply Hne. by apply leibniz_equiv. }
  unfold log_records. rewrite !Exists_app.
  repeat case_decide; rewrite ?Exists_cons, ?Exists_nil; cbn [is_warning];
    repeat match goal with
    | H : (0 < size _)%nat |- _ => apply Hsz in H
    | H : ~ (0 < size _)%nat |- _ => rewrite Hsz in H
    end;
    destruct mm; cbn [length] in *; intuition (try congruence; try lia).
Qed.

Lemma reconcile_mismatch_nonempty ig p state res mm :
  reconcile ig (init_model p) state = Ok (res, mm) ->
  mm <> [] <-> exists k s r, state !! k = Some s /\ p !! k = Some r /\ shape s <> shape r.
Proof.
  intros H. pose proof H as H'. apply ReconcileInvariants.reconcile_loop_ok in H' as (st1 & E & _).
  split.
  - intros Hne. destruct mm as [|x mm]; [done|].
    destruct (ReconcileInvariants.mismatch_loop_entries _ _ _ _ _ _ _ E x ltac:(set_solver))
      as [Hx|(k & s & r & _ & Hs & Hr & Hsh)]; [set_solver|]. by exists k, s, r.
  - intros (k & s & r & Hs & Hr & Hsh). destruct ig.
    + destruct (ReconcileFacts.mismatch_loop_true_hit _ _ _ _ _ _ _ _ _
                  (ReconcileInvariants.state_key_in _ _ _ Hs) Hs Hr Hsh E) as [_ Hin].
      intros ->. set_solver.
    + destruct (ReconcileFacts.mismatch_loop_false_hit p _ state [] k s r
                  (ReconcileFacts.state_keys_dom state) (ReconcileInvariants.state_key_in _ _ _ Hs) Hs Hr Hsh)
        as (? & ? & ? & E' & _). congruence.
Qed.

Lemma dom_ne_iff (A B : gset fkey) : A <> B <-> A ∖ B <> ∅ \/ B ∖ A <> ∅.
Proof.
  split.
  - intros Hne. destruct (decide (A ∖ B = ∅)) as [E1|E1]; [|by left].
    destruct (decide (B ∖ A = ∅)) as [E2|E2]; [|by right].
    exfalso. apply Hne. apply set_eq. intros k. split; intros Hk.
    + destruct (decide (k ∈ B)) as [|Hb]; [done|].
      assert (k ∈ A ∖ B) as Hd by (by apply elem_of_difference). rewrite E1 in Hd. set_solver.
    + destruct (decide (k ∈ A)) as [|Ha]; [done|].
      assert (k ∈ B ∖ A) as Hd by (by apply elem_of_difference). rewrite E2 in Hd. set_solver.
  - intros [H|H] ->; apply H; set_solver.
Qed.

Lemma adjust_prefix_same mp : adjust_prefix mp mp = mp.
Proof.
  unfold adjust_prefix. destruct (has_key base_model_prefix mp) eqn:Hm; cbn [negb andb].
  - rewrite Hm. reflexivity.
  - reflexivity.
Qed.

(** [from_pretrained] logs a warning exactly when the (prefix-adjusted,
    flattened) checkpoint does not have the model's key set or has a key
    whose shape differs from the model's. *)
Theorem from_pretrained_warns_iff (ignore_mismatched_sizes : bool) (model_params state : ptree Tensor)
    (res : gmap fkey Tensor) (mm : list mismatch) (logs : list log_record)
    (H : from_pretrained_params ignore_mismatched_sizes model_params state = Ok (res, mm, logs)) :
  Exists (fun r => is_warning r = true) logs <->
  dom (flatten_dict (adjust_prefix model_params state)) <> dom (flatten_dict model_params) \/
  exists k s r, flatten_dict (adjust_prefix model_params state) !! k = Some s /\
    flatten_dict model_params !! k = Some r /\ shape s <> shape r.
Proof.
  unfold from_pretrained_params in H.
  set (S := flatten_dict (adjust_prefix model_params state)) in *.
  set (P := flatten_dict model_params) in *.
  destruct (reconcile ignore_mismatched_sizes (init_model P) S) as [[res' mm']|e] eqn:E;
    cbn in H; [|discriminate].
  injection H as <- <- <-.
  rewrite log_records_warning, (dom_ne_iff (dom S) (dom P)), (reconcile_mismatch_nonempty _ _ _ _ _ E).
  cbn [required_params init_model]. tauto.
Qed.

(** Round trip: loading a model's own parameter tree back into it returns
    its parameters unchanged, records no mismatch and logs only the two
    "all weights used" and "all weights initialized" messages. *)
Theorem from_pretrained_round_trip (ignore_mismatched_sizes : bool) (model_params : ptree Tensor) :
  from_pretrained_params ignore_mismatched_sizes model_params model_params =
  Ok (flatten_dict model_params, [], [InfoAllWeightsUsed; InfoAllWeightsInitialized]).
Proof.
  unfold from_pretrained_params. rewrite adjust_prefix_same.
  cbn [required_params init_model].
  rewrite ReconcileInvariants.reconcile_compatible; [|done|congruence].
  cbn. rewrite difference_diag_L. unfold log_records. rewrite size_empty. reflexivity.
Qed.

(** Loading a base-model checkpoint (no top-level ["model"] key) into the
    DalleBart head model (whose parameters have one): the checkpoint is
    nested under ["model"], so every parameter outside ["model"] (the
    [lm_head]) keeps its freshly-initialized value, and a checkpoint
    tensor [k] with the model's shape is loaded at ["model"] :: [k]. *)
Theorem from_pretrained_base_checkpoint (ignore_mismatched_sizes : bool)
    (model_params state : ptree Tensor) (res : gmap fkey Tensor) (mm : list mismatch)
    (logs : list log_record)
    (Hhead : has_key base_model_prefix model_params = true)
    (Hbase : has_key base_model_prefix state = false)
    (H : from_pretrained_params ignore_mismatched_sizes model_params state = Ok (res, mm, logs)) :
  (forall k, head k <> Some base_model_prefix -> res !! k = flatten_dict model_params !! k) /\
  (forall k s r, flatten_dict state !! k = Some s ->
     flatten_dict model_params !! (base_model_prefix :: k) = Some r -> shape s = shape r ->
     res !! (base_model_prefix :: k) = Some s).
Proof.
  unfold from_pretrained_params in H. rewrite adjust_prefix_wrap in H by done.
  destruct (reconcile ignore_mismatched_sizes (init_model (flatten_dict model_params))
              (flatten_dict (PNode [(base_model_prefix, state)]))) as [[res' mm']|e] eqn:E;
    cbn in H; [|discriminate].
  injection H as <- <- <-.
  pose proof (ReconcileInvariants.reconcile_values_at _ _ _ _ _ E) as Hv. split.
  - intros k Hk. rewrite Hv, flatten_dict_single.
    assert (match k with
            | [] => None
            | y :: k' => if decide (y = base_model_prefix) then flatten_dict state !! k' else None
            end = @None Tensor) as ->.
    { destruct k as [|y k']; [done|]. rewrite decide_False; [done|]. intros ->. done. }
    destruct (flatten_dict model_params !! k); done.
  - intros k s r Hs Hr Hsh. rewrite Hv, Hr, flatten_dict_single, decide_True, Hs by done.
    rewrite decide_True by done. reflexivity.
Qed.

(** [num_params] of a DalleBart model with the parameter shapes [setup]
    creates: the embedding tables (text and image tokens, text and image
    positions), the encoder and decoder layers, the two embedding layer
    norms and the [lm_head] kernel. *)
Theorem num_params_init (cfg : config) (params : ptree Tensor)
    (Hp : tree_map shape params = init_shapes cfg) :
  num_params params =
    ((encoder_vocab_size cfg + max_text_length cfg + (image_vocab_size cfg + 1) + image_length cfg) * d_model cfg
     + encoder_layers cfg * (4 * d_model cfg * d_model cfg + 2 * d_model cfg * encoder_ffn_dim cfg + 4 * d_model cfg)
     + decoder_layers cfg * (8 * d_model cfg * d_model cfg + 2 * d_model cfg * encoder_ffn_dim cfg + 6 * d_model cfg)
     + 4 * d_model cfg
     + d_model cfg * (image_vocab_size cfg + 1))%nat.
Proof. rewrite (num_params_shapes cfg params Hp). apply init_shapes_count. Qed.

(** [__init__] records one required parameter per tensor [setup] creates:
    nine outside the layers, ten per encoder layer and sixteen per
    decoder layer. *)
Theorem required_params_count (cfg : config) (params : ptree Tensor)
    (Hp : tree_map shape params = init_shapes cfg) :
  size (required_params (init_model (flatten_dict params))) =
    (9 + 10 * encoder_layers cfg + 16 * decoder_layers cfg)%nat.
Proof.
  cbn [required_params init_model]. unfold flatten_dict.
  rewrite dom_list_to_map_L, size_list_to_set.
  2:{ rewrite <- (flatten_keys_tree_map shape), Hp.
      apply flatten_items_nodup, init_shapes_names_unique. }
  rewrite length_fmap, <- (length_map (fun '(k, a) => (k, shape a))), <- flatten_items_tree_map, Hp,
    <- leaf_sum_length.
  apply init_shapes_leaves.
Qed.

End LoadingFacts.

(** ** Generation inputs and the cache *)
Module GenerationFacts.
Import Params Decode DecodeFacts.

Lemma setup_ok (embed_dim num_heads : Z) :
  is_ok (Attention.setup embed_dim num_heads) = true <->
  num_heads <> 0 /\ embed_dim mod num_heads = 0.
Proof.
  unfold Attention.setup. case_decide as Hz; simpl.
  - split; [discriminate|]. intros [? _]. contradiction.
  - pose proof (Z.div_mod embed_dim num_heads Hz) as Hdm.
    case_decide as Hne; simpl.
    + split; [discriminate|]. intros [_ Hm]. exfalso. apply Hne. lia.
    + split; [|done]. intros _. split; [done|]. lia.
Qed.

Lemma setup_value (embed_dim num_heads head_dim : Z) :
  Attention.setup embed_dim num_heads = Ok head_dim -> head_dim * num_heads = embed_dim.
Proof.
  unfold Attention.setup. case_decide; [discriminate|].
  case_decide as Hne; [discriminate|]. intros [= <-]. lia.
Qed.

Lemma setup_ok_nat (d h : nat) :
  is_ok (Attention.setup (Z.of_nat d) (Z.of_nat h)) = true <-> h <> 0%nat /\ (d mod h = 0)%nat.
Proof.
  rewrite setup_ok. split; intros [Hh Hm]; split; try lia.
  - destruct (decide (h = 0%nat)) as [->|Hh']; [lia|].
    rewrite <- Nat2Z.inj_mod in Hm. lia.
  - rewrite <- Nat2Z.inj_mod. lia.
Qed.

Lemma assoc_same_value {A} (name : string) (v : ptree A) (l : list nat) :
  assoc name (map (fun i => (layer_name i, v)) l) =
  if bool_decide (name ∈ map layer_name l) then Some v else None.
Proof.
  induction l as [|j l IH]; cbn [map assoc].
  - rewrite bool_decide_false; [done|set_solver].
  - destruct (String.eqb_spec name (layer_name j)) as [->|Hne].
    + rewrite bool_decide_true; [done|set_solver].
    + rewrite IH. destruct (decide (name ∈ map layer_name l)) as [Hin|Hin].
      * rewrite !bool_decide_true by set_solver. done.
      * rewrite !bool_decide_false by set_solver. done.
Qed.

(** For a model with a non-empty position table ([image_length >= 1])
    and encoder hidden states of shape [(batch', s, f)],
    [prepare_inputs_for_generation] succeeds exactly when: [max_length]
    is at least 2 (the cache width [max_length - 1] is positive) and
    [max_length - 1] is at most [image_length] (the causal mask's size);
    there is at least one decoder layer (else no cache is created); the
    number of decoder heads is non-zero and divides [d_model]; the
    encoder batch [batch'] is the batch of [decoder_input_ids]; and a
    supplied decoder mask fits in the [(batch, max_length - 1)] mask it
    is copied into. *)
Theorem prepare_ok_iff (cfg : config) (decoder_input_ids : Mat) (max_length : Z)
    (attention_mask decoder_attention_mask : option Mat) (encoder_outputs : Tensor)
    (b' s f : nat)
    (Hil : (1 <= image_length cfg)%nat)
    (Henc : shape encoder_outputs = [b'; s; f]) :
  is_ok (prepare_inputs_for_generation cfg decoder_input_ids max_length attention_mask
           decoder_attention_mask encoder_outputs) = true <->
  2 <= max_length /\ (Z.to_nat (max_length - 1) <= image_length cfg)%nat /\
  decoder_layers cfg <> 0%nat /\
  decoder_attention_heads cfg <> 0%nat /\ (d_model cfg mod decoder_attention_heads cfg = 0)%nat /\
  b' = mrows decoder_input_ids /\
  match decoder_attention_mask with
  | Some m => (mrows m <= mrows decoder_input_ids)%nat /\ (mcols m <= Z.to_nat (max_length - 1))%nat
  | None => True
  end.
Proof.
  unfold prepare_inputs_for_generation.
  set (b := mrows decoder_input_ids).
  rewrite <- (cross_attention_check_rank3 (d_model cfg) b b' s f encoder_outputs Henc).
  destruct (init_cache cfg b (max_length - 1) encoder_outputs) as [c|e] eqn:Ec.
  - apply init_cache_ok in Ec as (Hge & HL & _ & Hn & hd & Hsetup & Hcausal & Hcross & _).
    apply causal_mask_check_ok in Hcausal.
    pose proof (proj1 (setup_ok_nat (d_model cfg) (decoder_attention_heads cfg))) as Hh.
    rewrite Hsetup in Hh. specialize (Hh eq_refl).
    rewrite Hcross.
    unfold mbind, result_bind. cbn beta iota.
    unfold ones_checked. rewrite decide_False by lia. cbn beta iota.
    destruct decoder_attention_mask as [m|]; cbn beta iota.
    + unfold dynamic_update_slice. cbn [mrows mcols ones]. case_decide as Hfit; cbn.
      * split; [intros _; repeat split; try tauto; lia|done].
      * split; [discriminate|]. intros Hx. exfalso. apply Hfit. destruct Hx as (_ & _ & _ & _ & _ & _ & Hf). exact Hf.
    + cbn. split; [intros _; repeat split; try tauto; lia|done].
  - cbn. split; [discriminate|].
    intros (H2 & HLil & Hn & Hh0 & Hm & Hcross & _).
    pose proof (proj2 (setup_ok_nat (d_model cfg) (decoder_attention_heads cfg)) (conj Hh0 Hm)) as Hsetup.
    destruct (Attention.setup _ _) as [hd|e'] eqn:Es; [|discriminate].
    assert (init_cache cfg b (max_length - 1) encoder_outputs = Ok
      (PNode [("model", PNode [("decoder", PNode [("layers", PNode
          (map (fun i => (layer_name i, layer_cache b (Z.to_nat (max_length - 1)) (decoder_attention_heads cfg) (Z.to_nat hd)))
               (seq 0 (decoder_layers cfg))))])])])) as Hok.
    { apply init_cache_ok. split_and!; try lia.
      exists hd. split_and!; try done. apply causal_mask_check_ok. exact HLil. }
    congruence.
Qed.


(** When [prepare_inputs_for_generation] returns, there is at least one
    decoder layer and the cache is exactly
    [{"model": {"decoder": {"layers": {str(i): layer_cache}}}}] for
    [i = 0 .. decoder_layers - 1] and nothing else, every layer holding
    zero key and value buffers of shape
    [(batch, max_length - 1, num_heads, head_dim)], with
    [num_heads * head_dim = d_model].  So the [cached_key] under a layer
    name is that zero array when the name is some [str(i)] with
    [i < decoder_layers], and any other name raises [KeyError]. *)
Theorem prepare_cache_layout (cfg : config) (decoder_input_ids : Mat) (max_length : Z)
    (attention_mask decoder_attention_mask : option Mat) (encoder_outputs : Tensor) (g : gen_inputs)
    (H : prepare_inputs_for_generation cfg decoder_input_ids max_length attention_mask
           decoder_attention_mask encoder_outputs = Ok g) :
  decoder_layers cfg <> 0%nat /\
  exists head_dim,
    (decoder_attention_heads cfg * head_dim = d_model cfg)%nat /\
    g_past_key_values g =
      PNode [("model", PNode [("decoder", PNode [("layers", PNode
        (map (fun i => (layer_name i,
                        layer_cache (mrows decoder_input_ids) (Z.to_nat (max_length - 1))
                          (decoder_attention_heads cfg) head_dim))
             (seq 0 (decoder_layers cfg))))])])] /\
    forall name : string,
      lookup_path ["model"; "decoder"; "layers"; name; "self_attn"; "cached_key"]
        (g_past_key_values g) =
      if bool_decide (name ∈ map layer_name (seq 0 (decoder_layers cfg)))
      then Ok (PLeaf (zeros [mrows decoder_input_ids; Z.to_nat (max_length - 1);
                             decoder_attention_heads cfg; head_dim]))
      else Err (KeyError [name]).
Proof.
  unfold prepare_inputs_for_generation in H.
  destruct (init_cache cfg (mrows decoder_input_ids) (max_length - 1) encoder_outputs) as [c|e] eqn:Ec;
    [|discriminate].
  apply init_cache_ok in Ec as (Hge & _ & _ & Hn & hd & Hsetup & _ & _ & ->).
  assert (g_past_key_values g =
      PNode [("model", PNode [("decoder", PNode [("layers", PNode
        (map (fun i => (layer_name i,
                        layer_cache (mrows decoder_input_ids) (Z.to_nat (max_length - 1))
                          (decoder_attention_heads cfg) (Z.to_nat hd)))
             (seq 0 (decoder_layers cfg))))])])]) as Hg.
  { unfold mbind, result_bind in H. cbn beta iota in H.
    unfold ones_checked in H. rewrite decide_False in H by lia. cbn beta iota in H.
    destruct decoder_attention_mask as [m|]; cbn beta iota in H.
    - destruct (dynamic_update_slice _ _); [|discriminate]. cbn in H. by injection H as <-.
    - by injection H as <-. }
  assert (Z.of_nat (decoder_attention_heads cfg) <> 0) as Hh0.
  { intros Hz. unfold Attention.setup in Hsetup. rewrite decide_True in Hsetup by done. discriminate. }
  apply setup_value in Hsetup.
  split; [exact Hn|]. exists (Z.to_nat hd). split_and!.
  - apply Nat2Z.inj. rewrite Nat2Z.inj_mul, Z2Nat.id; nia.
  - exact Hg.
  - intros name. rewrite Hg. cbn [lookup_path assoc String.eqb Ascii.eqb Bool.eqb andb].
    rewrite assoc_same_value. case_bool_decide; reflexivity.
Qed.



End GenerationFacts.

(** * Witnesses: the theorems applied at concrete inputs *)
Module Witnesses.
Import Reconcile ReconcileFacts Params ParamsFacts Decode DecodeFacts Load LoadFacts.

Lemma from_pretrained_key_set_witness :
  is_ok (reconcile true
           (init_model (<[["model"; "a"] := mkTensor [1%nat] []]>
                         {[ ["lm_head"; "kernel"] := mkTensor [3%nat] [] ]}))
           (<[["u"] := mkTensor [5%nat] []]> {[ ["lm_head"; "kernel"] := mkTensor [4%nat] [] ]}))
  = true.
Proof.
  apply (proj2 (from_pretrained_key_set true
           (<[["model"; "a"] := mkTensor [1%nat] []]> {[ ["lm_head"; "kernel"] := mkTensor [3%nat] [] ]})
           (<[["u"] := mkTensor [5%nat] []]> {[ ["lm_head"; "kernel"] := mkTensor [4%nat] [] ]}))).
  left. reflexivity.
Defined.

Lemma from_pretrained_shape_mismatch_witness :
  exists res mm,
    reconcile true
      (init_model (<[["model"; "a"] := mkTensor [1%nat] []]> {[ ["lm_head"; "kernel"] := mkTensor [3%nat] [] ]}))
      (<[["u"] := mkTensor [5%nat] []]> {[ ["lm_head"; "kernel"] := mkTensor [4%nat] [] ]})
    = Ok (res, mm) /\
    res !! ["lm_head"; "kernel"] = Some (mkTensor [3%nat] []) /\
    (["lm_head"; "kernel"], [4%nat], [3%nat]) ∈ mm.
Proof.
  refine (proj2 (from_pretrained_shape_mismatch
           (<[["model"; "a"] := mkTensor [1%nat] []]> {[ ["lm_head"; "kernel"] := mkTensor [3%nat] [] ]})
           (<[["u"] := mkTensor [5%nat] []]> {[ ["lm_head"; "kernel"] := mkTensor [4%nat] [] ]})
           ["lm_head"; "kernel"] (mkTensor [4%nat] []) (mkTensor [3%nat] []) _ _ _)).
  - vm_compute. reflexivity.
  - vm_compute. reflexivity.
  - discriminate.
Defined.

Lemma attention_setup_ok_iff_witness : is_ok (Attention.setup 1024 16) = true.
Proof.
  apply (proj2 (AttentionFacts.attention_setup_ok_iff 1024 16)).
  split; [lia|reflexivity].
Defined.

Lemma decoder_vocab_size_witness :
  exists logits,
    lm_logits (mkConfig 2 3 4 5 6 1 2 7 1 1 false)
      (tree_map (fun sh => zeros sh) (init_shapes (mkConfig 2 3 4 5 6 1 2 7 1 1 false)))
      (mkTensor [2%nat] [1; 1]) = Ok logits /\
    shape logits = [5%nat].
Proof.
  destruct (lm_logits (mkConfig 2 3 4 5 6 1 2 7 1 1 false)
              (tree_map (fun sh => zeros sh) (init_shapes (mkConfig 2 3 4 5 6 1 2 7 1 1 false)))
              (mkTensor [2%nat] [1; 1])) as [logits|e] eqn:E.
  - exists logits. split; [reflexivity|].
    exact (proj2 (proj2 (decoder_vocab_size (mkConfig 2 3 4 5 6 1 2 7 1 1 false)
             (tree_map (fun sh => zeros sh) (init_shapes (mkConfig 2 3 4 5 6 1 2 7 1 1 false)))
             (mkTensor [2%nat] [1; 1]) logits ltac:(reflexivity) E))).
  - exfalso. vm_compute in E. discriminate E.
Defined.

Lemma tied_projection_missing_shared_witness :
  lm_logits (mkConfig 2 3 4 5 6 1 2 7 1 1 true)
    (tree_map (fun sh => zeros sh) (init_shapes (mkConfig 2 3 4 5 6 1 2 7 1 1 true)))
    (mkTensor [2%nat] [1; 1]) = Err (KeyError ["shared"]).
Proof.
  exact (tied_projection_missing_shared (mkConfig 2 3 4 5 6 1 2 7 1 1 true)
           (tree_map (fun sh => zeros sh) (init_shapes (mkConfig 2 3 4 5 6 1 2 7 1 1 true)))
           (mkTensor [2%nat] [1; 1]) ltac:(reflexivity) ltac:(reflexivity)).
Defined.

Lemma decode_defaults_without_cache_witness :
  decode (fun mi => Ok (mget (mi_decoder_position_ids mi) 1 2, mget (mi_decoder_attention_mask mi) 1 0,
                        mi_mutable mi))
    (mkMat 2 3 (fun _ _ => 7)) (mkTensor [2; 4; 8]%nat [])
    None (Some (mkMat 2 3 (fun _ j => if Nat.eqb j 0 then 0 else 1))) None None = Ok (2, 0, false).
Proof.
  rewrite (decode_defaults_without_cache
             (fun mi => Ok (mget (mi_decoder_position_ids mi) 1 2, mget (mi_decoder_attention_mask mi) 1 0,
                            mi_mutable mi))
             (mkMat 2 3 (fun _ _ => 7)) (mkTensor [2; 4; 8]%nat [])
             None (Some (mkMat 2 3 (fun _ j => if Nat.eqb j 0 then 0 else 1))) None
             2 4 [8%nat] ltac:(reflexivity)).
  reflexivity.
Defined.

Lemma prepare_inputs_for_generation_witness :
  exists g,
    prepare_inputs_for_generation (mkConfig 4 3 4 5 6 1 2 7 1 2 false) (mkMat 2 1 (fun _ _ => 7)) 5
      None (Some (mkMat 2 3 (fun _ j => if Nat.eqb j 1 then 0 else 1))) (mkTensor [2; 3; 4]%nat [])
    = Ok g /\
    mcols (g_decoder_attention_mask g) = 4%nat /\
    mget (g_decoder_position_ids g) 0 2 = 1.
Proof.
  destruct (prepare_inputs_for_generation (mkConfig 4 3 4 5 6 1 2 7 1 2 false) (mkMat 2 1 (fun _ _ => 7)) 5
      None (Some (mkMat 2 3 (fun _ j => if Nat.eqb j 1 then 0 else 1))) (mkTensor [2; 3; 4]%nat []))
    as [g|e] eqn:E.
  - exists g. split; [reflexivity|].
    destruct (prepare_inputs_for_generation_spec _ _ _ _ _ _ g E)
      as (_ & _ & _ & Hc & _ & _ & _ & Hpos & _).
    split; [lia|]. rewrite Hpos. reflexivity.
  - exfalso. vm_compute in E. discriminate E.
Defined.

Lemma load_state_format_errors_witness :
  exists e,
    load_state (fun _ => ExtraData) (fun _ => Some "version https://git-lfs.github.com/spec/v1"%string) []
      = Err e /\ e = GitLfsError.
Proof.
  destruct (load_state_format_errors (fun _ => ExtraData)
              (fun _ => Some "version https://git-lfs.github.com/spec/v1"%string) []
              ltac:(discriminate)) as (e & He & Hcaught & _).
  exists e. split; [exact He|]. apply Hcaught. right. reflexivity.
Defined.

End Witnesses.

(** * Witnesses of the further properties *)
Module ExtraWitnesses.
Import Reconcile Params Decode Loading ReconcileInvariants LoadingFacts GenerationFacts.

Lemma from_pretrained_values_witness :
  exists res mm,
    reconcile true
      (init_model (<[["model"; "a"] := mkTensor [2%nat] [1; 2]]> {[ ["lm_head"; "kernel"] := mkTensor [3%nat] [0; 0; 0] ]}))
      (<[["model"; "a"] := mkTensor [2%nat] [5; 6]]> {[ ["lm_head"; "kernel"] := mkTensor [4%nat] [] ]})
    = Ok (res, mm) /\
    res !! ["model"; "a"] = Some (mkTensor [2%nat] [5; 6]) /\
    res !! ["lm_head"; "kernel"] = Some (mkTensor [3%nat] [0; 0; 0]).
Proof.
  destruct (reconcile true
      (init_model (<[["model"; "a"] := mkTensor [2%nat] [1; 2]]> {[ ["lm_head"; "kernel"] := mkTensor [3%nat] [0; 0; 0] ]}))
      (<[["model"; "a"] := mkTensor [2%nat] [5; 6]]> {[ ["lm_head"; "kernel"] := mkTensor [4%nat] [] ]}))
    as [[res mm]|e] eqn:E.
  - exists res, mm. split; [reflexivity|].
    rewrite !(from_pretrained_values _ _ _ _ _ E). split; vm_compute; reflexivity.
  - exfalso. vm_compute in E. discriminate E.
Defined.

Lemma from_pretrained_compatible_checkpoint_witness :
  reconcile false
    (init_model (<[["model"; "a"] := mkTensor [2%nat] [1; 2]]> {[ ["lm_head"; "kernel"] := mkTensor [3%nat] [0; 0; 0] ]}))
    (<[["model"; "a"] := mkTensor [2%nat] [5; 6]]> {[ ["lm_head"; "kernel"] := mkTensor [3%nat] [7; 8; 9] ]})
  = Ok (<[["model"; "a"] := mkTensor [2%nat] [5; 6]]> {[ ["lm_head"; "kernel"] := mkTensor [3%nat] [7; 8; 9] ]}, []).
Proof.
  refine (from_pretrained_compatible_checkpoint false _ _ _ _).
  - vm_compute. reflexivity.
  - intros k s r Hs Hr.
    apply lookup_insert_Some in Hs as [[<- <-]|[Hk Hs]];
      apply lookup_insert_Some in Hr as [[Hk' <-]|[Hk' Hr]]; try congruence.
    + reflexivity.
    + apply lookup_singleton_Some in Hs as [<- <-]. apply lookup_singleton_Some in Hr as [_ <-].
      reflexivity.
Defined.

Lemma from_pretrained_idempotent_witness :
  exists res mm,
    reconcile true (init_model (<[["model"; "a"] := mkTensor [2%nat] [1; 2]]> {[ ["lm_head"; "kernel"] := mkTensor [3%nat] [0; 0; 0] ]})) (<[["model"; "a"] := mkTensor [2%nat] [5; 6]]> {[ ["lm_head"; "kernel"] := mkTensor [4%nat] [] ]}) = Ok (res, mm) /\
    reconcile false (init_model (<[["model"; "a"] := mkTensor [2%nat] [1; 2]]> {[ ["lm_head"; "kernel"] := mkTensor [3%nat] [0; 0; 0] ]})) res = Ok (res, []).
Proof.
  destruct (reconcile true (init_model (<[["model"; "a"] := mkTensor [2%nat] [1; 2]]> {[ ["lm_head"; "kernel"] := mkTensor [3%nat] [0; 0; 0] ]})) (<[["model"; "a"] := mkTensor [2%nat] [5; 6]]> {[ ["lm_head"; "kernel"] := mkTensor [4%nat] [] ]})) as [[res mm]|e] eqn:E.
  - exists res, mm. split; [reflexivity|]. exact (from_pretrained_idempotent true false _ _ _ _ E).
  - exfalso. vm_compute in E. discriminate E.
Defined.

Lemma from_pretrained_mismatch_record_witness :
  exists res mm,
    reconcile true (init_model (<[["model"; "a"] := mkTensor [2%nat] [1; 2]]> {[ ["lm_head"; "kernel"] := mkTensor [3%nat] [0; 0; 0] ]})) (<[["model"; "a"] := mkTensor [2%nat] [5; 6]]> {[ ["lm_head"; "kernel"] := mkTensor [4%nat] [] ]}) = Ok (res, mm) /\
    (["lm_head"; "kernel"], [4%nat], [3%nat]) ∈ mm /\ NoDup (mm.*1.*1).
Proof.
  destruct (reconcile true (init_model (<[["model"; "a"] := mkTensor [2%nat] [1; 2]]> {[ ["lm_head"; "kernel"] := mkTensor [3%nat] [0; 0; 0] ]})) (<[["model"; "a"] := mkTensor [2%nat] [5; 6]]> {[ ["lm_head"; "kernel"] := mkTensor [4%nat] [] ]})) as [[res mm]|e] eqn:E.
  - exists res, mm. split; [reflexivity|].
    destruct (from_pretrained_mismatch_record _ _ _ _ E) as [Hiff Hnd]. split; [|exact Hnd].
    apply Hiff. exists (mkTensor [4%nat] []), (mkTensor [3%nat] [0; 0; 0]).
    split_and!; [vm_compute; reflexivity|vm_compute; reflexivity|reflexivity|reflexivity|discriminate].
  - exfalso. vm_compute in E. discriminate E.
Defined.

Lemma from_pretrained_strict_success_witness :
  exists res mm,
    reconcile false (init_model (<[["model"; "a"] := mkTensor [2%nat] [1; 2]]> {[ ["lm_head"; "kernel"] := mkTensor [3%nat] [0; 0; 0] ]})) (<[["model"; "a"] := mkTensor [2%nat] [5; 6]]> (<[["u"] := mkTensor [1%nat] [4]]> {[ ["lm_head"; "kernel"] := mkTensor [3%nat] [7; 8; 9] ]})) = Ok (res, mm) /\
    mm = [] /\ res !! ["lm_head"; "kernel"] = Some (mkTensor [3%nat] [7; 8; 9]).
Proof.
  destruct (reconcile false (init_model (<[["model"; "a"] := mkTensor [2%nat] [1; 2]]> {[ ["lm_head"; "kernel"] := mkTensor [3%nat] [0; 0; 0] ]})) (<[["model"; "a"] := mkTensor [2%nat] [5; 6]]> (<[["u"] := mkTensor [1%nat] [4]]> {[ ["lm_head"; "kernel"] := mkTensor [3%nat] [7; 8; 9] ]}))) as [[res mm]|e] eqn:E.
  - exists res, mm. split; [reflexivity|].
    destruct (from_pretrained_strict_success _ _ _ _ E) as [Hmm Hcom]. split; [exact Hmm|].
    rewrite Hcom.
    + vm_compute. reflexivity.
    + refine (elem_of_dom_2 _ _ (mkTensor [3%nat] [0; 0; 0]) _). vm_compute. reflexivity.
    + refine (elem_of_dom_2 _ _ (mkTensor [3%nat] [7; 8; 9]) _). vm_compute. reflexivity.
  - exfalso. vm_compute in E. discriminate E.
Defined.

Lemma from_pretrained_preserves_shapes_witness :
  exists res mm,
    reconcile true (init_model (<[["model"; "a"] := mkTensor [2%nat] [1; 2]]> {[ ["lm_head"; "kernel"] := mkTensor [3%nat] [0; 0; 0] ]})) (<[["model"; "a"] := mkTensor [2%nat] [5; 6]]> {[ ["lm_head"; "kernel"] := mkTensor [4%nat] [] ]}) = Ok (res, mm) /\
    shape <$> res = shape <$> (<[["model"; "a"] := mkTensor [2%nat] [1; 2]]> {[ ["lm_head"; "kernel"] := mkTensor [3%nat] [0; 0; 0] ]}).
Proof.
  destruct (reconcile true (init_model (<[["model"; "a"] := mkTensor [2%nat] [1; 2]]> {[ ["lm_head"; "kernel"] := mkTensor [3%nat] [0; 0; 0] ]})) (<[["model"; "a"] := mkTensor [2%nat] [5; 6]]> {[ ["lm_head"; "kernel"] := mkTensor [4%nat] [] ]})) as [[res mm]|e] eqn:E.
  - exists res, mm. split; [reflexivity|]. exact (from_pretrained_preserves_shapes _ _ _ _ _ E).
  - exfalso. vm_compute in E. discriminate E.
Defined.

Lemma from_pretrained_warns_iff_witness :
  exists res mm logs,
    from_pretrained_params false (PNode [("model", PNode [("a", PLeaf (mkTensor [2%nat] [1; 2]))]); ("lm_head", PNode [("kernel", PLeaf (mkTensor [3%nat] [0; 0; 0]))])]) (PNode [("a", PLeaf (mkTensor [2%nat] [5; 6]))]) = Ok (res, mm, logs) /\
    Exists (fun r => is_warning r = true) logs.
Proof.
  destruct (from_pretrained_params false (PNode [("model", PNode [("a", PLeaf (mkTensor [2%nat] [1; 2]))]); ("lm_head", PNode [("kernel", PLeaf (mkTensor [3%nat] [0; 0; 0]))])]) (PNode [("a", PLeaf (mkTensor [2%nat] [5; 6]))])) as [[[res mm] logs]|e] eqn:E.
  - exists res, mm, logs. split; [reflexivity|].
    apply (from_pretrained_warns_iff _ _ _ _ _ _ E). left. intros Hd.
    apply (f_equal (fun X : gset fkey => bool_decide (["lm_head"; "kernel"] ∈ X))) in Hd.
    vm_compute in Hd. discriminate Hd.
  - exfalso. vm_compute in E. discriminate E.
Defined.

Lemma from_pretrained_base_checkpoint_witness :
  exists res mm logs,
    from_pretrained_params false (PNode [("model", PNode [("a", PLeaf (mkTensor [2%nat] [1; 2]))]); ("lm_head", PNode [("kernel", PLeaf (mkTensor [3%nat] [0; 0; 0]))])]) (PNode [("a", PLeaf (mkTensor [2%nat] [5; 6]))]) = Ok (res, mm, logs) /\
    res !! ["lm_head"; "kernel"] = Some (mkTensor [3%nat] [0; 0; 0]) /\
    res !! ["model"; "a"] = Some (mkTensor [2%nat] [5; 6]).
Proof.
  destruct (from_pretrained_params false (PNode [("model", PNode [("a", PLeaf (mkTensor [2%nat] [1; 2]))]); ("lm_head", PNode [("kernel", PLeaf (mkTensor [3%nat] [0; 0; 0]))])]) (PNode [("a", PLeaf (mkTensor [2%nat] [5; 6]))])) as [[[res mm] logs]|e] eqn:E.
  - exists res, mm, logs. split; [reflexivity|].
    destruct (from_pretrained_base_checkpoint false (PNode [("model", PNode [("a", PLeaf (mkTensor [2%nat] [1; 2]))]); ("lm_head", PNode [("kernel", PLeaf (mkTensor [3%nat] [0; 0; 0]))])]) (PNode [("a", PLeaf (mkTensor [2%nat] [5; 6]))]) res mm logs eq_refl eq_refl E) as [Hout Hin]. split.
    + rewrite Hout by discriminate. vm_compute. reflexivity.
    + refine (Hin ["a"] (mkTensor [2%nat] [5; 6]) (mkTensor [2%nat] [1; 2]) _ _ eq_refl).
      * vm_compute. reflexivity.
      * vm_compute. reflexivity.
  - exfalso. vm_compute in E. discriminate E.
Defined.

Lemma num_params_init_witness :
  num_params (tree_map (fun sh => zeros sh) (init_shapes (mkConfig 2 3 4 5 6 1 2 7 1 1 false))) = 252%nat.
Proof.
  rewrite (num_params_init (mkConfig 2 3 4 5 6 1 2 7 1 1 false) (tree_map (fun sh => zeros sh) (init_shapes (mkConfig 2 3 4 5 6 1 2 7 1 1 false))) eq_refl).
  reflexivity.
Defined.

Lemma required_params_count_witness :
  size (required_params (init_model (flatten_dict (tree_map (fun sh => zeros sh) (init_shapes (mkConfig 2 3 4 5 6 1 2 7 1 1 false)))))) = 51%nat.
Proof.
  rewrite (required_params_count (mkConfig 2 3 4 5 6 1 2 7 1 1 false) (tree_map (fun sh => zeros sh) (init_shapes (mkConfig 2 3 4 5 6 1 2 7 1 1 false))) eq_refl).
  reflexivity.
Defined.

Lemma prepare_ok_iff_witness :
  is_ok (prepare_inputs_for_generation (mkConfig 4 3 4 5 6 1 2 7 1 2 false) (mkMat 2 1 (fun _ _ => 7)) 5
           None None (mkTensor [2; 3; 4]%nat [])) = true /\
  is_ok (prepare_inputs_for_generation (mkConfig 4 3 4 5 6 1 2 7 1 2 false) (mkMat 2 1 (fun _ _ => 7)) 9
           None None (mkTensor [2; 3; 4]%nat [])) = false.
Proof.
  split.
  - apply (proj2 (prepare_ok_iff (mkConfig 4 3 4 5 6 1 2 7 1 2 false) (mkMat 2 1 (fun _ _ => 7)) 5
                    None None (mkTensor [2; 3; 4]%nat []) 2 3 4 ltac:(cbn; lia) eq_refl)).
    repeat split; vm_compute; try lia; congruence.
  - destruct (is_ok (prepare_inputs_for_generation (mkConfig 4 3 4 5 6 1 2 7 1 2 false)
                       (mkMat 2 1 (fun _ _ => 7)) 9 None None (mkTensor [2; 3; 4]%nat []))) eqn:E;
      [|reflexivity].
    exfalso.
    apply (prepare_ok_iff (mkConfig 4 3 4 5 6 1 2 7 1 2 false) (mkMat 2 1 (fun _ _ => 7)) 9
             None None (mkTensor [2; 3; 4]%nat []) 2 3 4 ltac:(cbn; lia) eq_refl) in E
      as (_ & Hl & _).
    vm_compute in Hl. lia.
Defined.

Lemma prepare_cache_layout_witness :
  exists g,
    prepare_inputs_for_generation (mkConfig 4 3 4 5 6 1 2 7 1 2 false) (mkMat 2 1 (fun _ _ => 7)) 5 None None (mkTensor [2; 3; 4]%nat [])
    = Ok g /\
    exists head_dim, (2 * head_dim = 4)%nat /\
      lookup_path ["model"; "decoder"; "layers"; layer_name 1; "self_attn"; "cached_key"] (g_past_key_values g)
      = Ok (PLeaf (zeros [2; 4; 2; head_dim]%nat)) /\
      lookup_path ["model"; "decoder"; "layers"; "x"; "self_attn"; "cached_key"] (g_past_key_values g)
      = Err (KeyError ["x"]).
Proof.
  destruct (prepare_inputs_for_generation (mkConfig 4 3 4 5 6 1 2 7 1 2 false) (mkMat 2 1 (fun _ _ => 7)) 5 None None
              (mkTensor [2; 3; 4]%nat [])) as [g|e] eqn:E.
  - exists g. split; [reflexivity|].
    destruct (prepare_cache_layout _ _ _ _ _ _ g E) as (_ & hd & Hhd & _ & Hlook).
    exists hd. split_and!; [exact Hhd|rewrite Hlook; reflexivity|rewrite Hlook; reflexivity].
  - exfalso. vm_compute in E. discriminate E.
Defined.

End ExtraWitnesses.
